(** * ChessApp::EngineModule — the engine subprocess bridge

    A shallow embedding of [windows/chessapp/EngineModule.cpp] and
    [EngineModule.h]: the native module that launches the chess engine,
    redirects its standard streams to anonymous pipes, drains its output on
    a reader thread and offers SpawnEngine / SendCommand / ReadOutput /
    StopEngine / IsEngineRunning to the host.

    The member variables of the C++ object are a record, the Win32 calls
    are actions on an explicit world (a log of the calls made, the table of
    open handles and the handle allocator), and every answer that the
    operating system gives (does the file exist, did CreatePipe succeed,
    how many bytes did WriteFile accept, ...) is an argument of the
    operation, so that theorems quantify over all of them. *)

From Stdlib Require Import NArith String Ascii List Lia DecimalString.
From stdpp Require Import base tactics option list gmap sets strings.

Open Scope string_scope.
Open Scope list_scope.
Open Scope nat_scope.

(** ** Machine data *)

(** [HANDLE] is a pointer-sized value; [nullptr] is zero.  Handles issued
    by the operating system are never null. *)
Definition HANDLE := N.
Definition nullptr : HANDLE := 0%N.

Definition DWORD := N.
Definition DWORD_MAX : N := 4294967296%N.

(** [(DWORD)n] for a [size_t] n: truncation to 32 bits. *)
Definition to_DWORD (n : nat) : DWORD := (N.of_nat n mod DWORD_MAX)%N.

Definition STILL_ACTIVE : DWORD := 259%N.

(** [std::wstring]: a sequence of UTF-16 code units. *)
Definition wchar_t := N.
Definition wstring := list wchar_t.

(** The wide literal [L"..."] of an ASCII text. *)
Definition L (s : string) : wstring :=
  map N_of_ascii (list_ascii_of_string s).

(** [std::string] is [string]: a sequence of bytes that may hold NUL. *)
Definition NUL : ascii := Ascii.zero.
Definition LF : ascii := "010"%char.

Definition is_NUL (c : ascii) : bool := Ascii.eqb c NUL.

(** [s.empty()] *)
Definition string_empty (s : string) : bool :=
  match s with EmptyString => true | String _ _ => false end.

(** [s.back()]; the source calls it on non-empty strings only, the value
    for the empty string is a placeholder. *)
Fixpoint back (s : string) : ascii :=
  match s with
  | EmptyString => NUL
  | String c EmptyString => c
  | String _ r => back r
  end.

(** [s += c] *)
Definition push_back (s : string) (c : ascii) : string :=
  s +:+ String c EmptyString.

(** [std::string(const char* p)]: the bytes up to, not including, the
    first NUL. *)
Fixpoint c_str (buf : list ascii) : string :=
  match buf with
  | [] => EmptyString
  | c :: r => if is_NUL c then EmptyString else String c (c_str r)
  end.

(** [stream << n] for an unsigned number: its decimal digits. *)
Definition dec (n : DWORD) : string := NilZero.string_of_uint (N.to_uint n).

(** ** Paths *)

(** [s.find_last_of(chars)]: the index of the last element of [s] that
    occurs in [chars]; [None] is [npos]. *)
Fixpoint find_last_of_from (chars s : wstring) (i : nat) (found : option nat)
  : option nat :=
  match s with
  | [] => found
  | c :: r =>
      find_last_of_from chars r (S i)
        (if bool_decide (c ∈ chars) then Some i else found)
  end.

Definition find_last_of (s chars : wstring) : option nat :=
  find_last_of_from chars s 0 None.

(** [s.substr(pos)] for [pos <= s.size()]. *)
Definition substr (s : wstring) (pos : nat) : wstring := drop pos s.

Definition separators : wstring := L "\/".

(** The filename extraction that both SpawnEngine and CopyEngineToAppData
    perform:
    [lastSlash = path.find_last_of(L"\\/");
     filename = lastSlash != npos ? path.substr(lastSlash + 1) : path]. *)
Definition filename_of (path : wstring) : wstring :=
  match find_last_of path separators with
  | Some lastSlash => substr path (lastSlash + 1)
  | None => path
  end.

(** ** The world outside the module *)

(** One entry per call that leaves the process. *)
Inductive OsCall :=
| EvOutputDebugStringW (msg : wstring)
| EvGetFileAttributesW (path : wstring)
| EvGetTempPathW
| EvCreateDirectoryW (dir : wstring)
| EvCopyFileW (src dst : wstring)
| EvCreatePipe (result : option (HANDLE * HANDLE))
| EvSetHandleInformation (h : HANDLE)
| EvCreateProcessW (path : wstring) (hStdInput hStdOutput hStdError : HANDLE)
    (result : option (HANDLE * HANDLE))
| EvCloseHandle (h : HANDLE)
| EvTerminateProcess (h : HANDLE)
| EvWaitForSingleObject (h : HANDLE) (ms : N)
| EvWriteFile (h : HANDLE) (data : string) (nBytes : DWORD)
    (result : option DWORD)
| EvFlushFileBuffers (h : HANDLE)
| EvPeekNamedPipe (h : HANDLE)
| EvReadFile (h : HANDLE) (nBytes : DWORD)
| EvGetExitCodeProcess (h : HANDLE)
| EvThreadStart
| EvThreadJoin
| EvJSPost (output : string).

Global Instance OsCall_eq_dec : EqDecision OsCall.
Proof. solve_decision. Defined.

Record World := mkWorld {
  os_log : list OsCall;          (* calls made so far, oldest first *)
  open_handles : gset HANDLE;    (* handles this process holds open *)
  next_handle : positive         (* allocator of fresh handle values *)
}.

(** ** The module object *)

(** [std::thread m_outputThread].  A default-constructed or joined thread
    object is not joinable; a started one stays joinable after its function
    has returned, until it is joined. *)
Inductive thread := NotAThread | Polling | Returned.

Global Instance thread_eq_dec : EqDecision thread.
Proof. solve_decision. Defined.

Definition joinable (t : thread) : bool :=
  match t with NotAThread => false | _ => true end.

Record EngineModule := mkEngineModule {
  OnEngineOutput : bool;         (* is a handler bound to the event *)
  m_processHandle : HANDLE;
  m_stdinWrite : HANDLE;
  m_stdoutRead : HANDLE;
  m_stderrRead : HANDLE;
  m_outputThread : thread;
  m_isRunning : bool;
  m_outputQueue : list string    (* std::queue: front is the head *)
}.

(** The object as its in-class initialisers leave it. *)
Definition fresh_module (listener : bool) : EngineModule :=
  mkEngineModule listener nullptr nullptr nullptr nullptr NotAThread false [].

Record Sys := mkSys { this : EngineModule; os : World }.

(** ** Actions: state passing over the object and the world *)

Definition Act (A : Type) : Type := Sys → A * Sys.

Global Instance Act_ret : MRet Act := λ A (a : A) σ, (a, σ).
Global Instance Act_bind : MBind Act :=
  λ A B (f : A → Act B) (m : Act A) σ, let '(a, σ') := m σ in f a σ'.

Definition skip : Act unit := mret tt.

Definition when (b : bool) (a : Act unit) : Act unit :=
  if b then a else skip.

(** Reading a member, and the assignments to each of them. *)
Definition member {A} (field : EngineModule → A) : Act A :=
  λ σ, (field (this σ), σ).

Definition assign (f : EngineModule → EngineModule) : Act unit :=
  λ σ, (tt, mkSys (f (this σ)) (os σ)).

Definition set_processHandle (h : HANDLE) : Act unit :=
  assign (λ m, mkEngineModule (OnEngineOutput m) h (m_stdinWrite m)
    (m_stdoutRead m) (m_stderrRead m) (m_outputThread m) (m_isRunning m)
    (m_outputQueue m)).
Definition set_stdinWrite (h : HANDLE) : Act unit :=
  assign (λ m, mkEngineModule (OnEngineOutput m) (m_processHandle m) h
    (m_stdoutRead m) (m_stderrRead m) (m_outputThread m) (m_isRunning m)
    (m_outputQueue m)).
Definition set_stdoutRead (h : HANDLE) : Act unit :=
  assign (λ m, mkEngineModule (OnEngineOutput m) (m_processHandle m)
    (m_stdinWrite m) h (m_stderrRead m) (m_outputThread m) (m_isRunning m)
    (m_outputQueue m)).
Definition set_stderrRead (h : HANDLE) : Act unit :=
  assign (λ m, mkEngineModule (OnEngineOutput m) (m_processHandle m)
    (m_stdinWrite m) (m_stdoutRead m) h (m_outputThread m) (m_isRunning m)
    (m_outputQueue m)).
Definition set_outputThread (t : thread) : Act unit :=
  assign (λ m, mkEngineModule (OnEngineOutput m) (m_processHandle m)
    (m_stdinWrite m) (m_stdoutRead m) (m_stderrRead m) t (m_isRunning m)
    (m_outputQueue m)).
Definition set_isRunning (b : bool) : Act unit :=
  assign (λ m, mkEngineModule (OnEngineOutput m) (m_processHandle m)
    (m_stdinWrite m) (m_stdoutRead m) (m_stderrRead m) (m_outputThread m) b
    (m_outputQueue m)).
Definition set_outputQueue (q : list string) : Act unit :=
  assign (λ m, mkEngineModule (OnEngineOutput m) (m_processHandle m)
    (m_stdinWrite m) (m_stdoutRead m) (m_stderrRead m) (m_outputThread m)
    (m_isRunning m) q).

(** [m_outputQueue.push(x)] and [m_outputQueue.pop()] *)
Definition queue_push (x : string) : Act unit :=
  q ← member m_outputQueue; set_outputQueue (q ++ [x]).
Definition queue_pop : Act unit :=
  q ← member m_outputQueue; set_outputQueue (tail q).

(** ** Win32 calls *)

Definition record (e : OsCall) : Act unit :=
  λ σ, (tt, mkSys (this σ)
              (mkWorld (os_log (os σ) ++ [e]) (open_handles (os σ))
                 (next_handle (os σ)))).

(** A handle value never issued before. *)
Definition new_handle : Act HANDLE :=
  λ σ, let p := next_handle (os σ) in
       (Npos p, mkSys (this σ)
                  (mkWorld (os_log (os σ)) ({[ Npos p ]} ∪ open_handles (os σ))
                     (Pos.succ p))).

Definition release (h : HANDLE) : Act unit :=
  λ σ, (tt, mkSys (this σ)
              (mkWorld (os_log (os σ)) (open_handles (os σ) ∖ {[ h ]})
                 (next_handle (os σ)))).

Definition OutputDebugStringW (msg : wstring) : Act unit :=
  record (EvOutputDebugStringW msg).

(** [CreatePipe(&rd, &wr, &sa, 0)]: on success both ends are fresh open
    handles; on failure the two out-parameters are left as they were. *)
Definition CreatePipe (succeeds : bool) : Act (option (HANDLE * HANDLE)) :=
  if succeeds then
    rd ← new_handle; wr ← new_handle;
    record (EvCreatePipe (Some (rd, wr)));; mret (Some (rd, wr))
  else
    record (EvCreatePipe None);; mret None.

Definition SetHandleInformation (h : HANDLE) : Act unit :=
  record (EvSetHandleInformation h).

Definition CloseHandle (h : HANDLE) : Act unit :=
  record (EvCloseHandle h);; release h.

(** [CreateProcessW]: on success [pi.hProcess] and [pi.hThread] are fresh
    open handles. *)
Definition CreateProcessW (succeeds : bool) (path : wstring)
    (hIn hOut hErr : HANDLE) : Act (option (HANDLE * HANDLE)) :=
  if succeeds then
    hProcess ← new_handle; hThread ← new_handle;
    record (EvCreateProcessW path hIn hOut hErr (Some (hProcess, hThread)));;
    mret (Some (hProcess, hThread))
  else
    record (EvCreateProcessW path hIn hOut hErr None);; mret None.

Definition TerminateProcess (h : HANDLE) : Act unit :=
  record (EvTerminateProcess h).
Definition WaitForSingleObject (h : HANDLE) (ms : N) : Act unit :=
  record (EvWaitForSingleObject h ms).

(** [WriteFile(h, data, n, &bytesWritten, nullptr)]: [None] is a FALSE
    return, [Some k] a TRUE return that stored k in [bytesWritten]. *)
Definition WriteFile (result : option DWORD) (h : HANDLE) (data : string)
    (n : DWORD) : Act (option DWORD) :=
  record (EvWriteFile h data n result);; mret result.

Definition FlushFileBuffers (h : HANDLE) : Act unit :=
  record (EvFlushFileBuffers h).

(** ** What the operating system answers *)

(** The answers one trip of the reader loop receives. *)
Record Poll := mkPoll {
  peek : option DWORD;          (* PeekNamedPipe: FALSE, or TRUE and [available] *)
  pipe_read : option (list ascii); (* ReadFile: FALSE, or TRUE and the bytes *)
  stale : list ascii;           (* what [buffer] held before the trip *)
  exit_code : option DWORD      (* GetExitCodeProcess: FALSE, or TRUE and the code *)
}.

(** The answers one SpawnEngine call receives. *)
Record Launch := mkLaunch {
  packagePath : wstring;        (* Package::Current().InstalledLocation().Path() *)
  file_exists : wstring → bool; (* GetFileAttributesW(p) != INVALID_FILE_ATTRIBUTES *)
  tempPath : wstring;           (* text stored by GetTempPathW; its length is returned *)
  copy_succeeds : wstring → wstring → bool;   (* CopyFileW(src, dst, FALSE) *)
  pipe_stdin : bool;            (* the three CreatePipe calls *)
  pipe_stdout : bool;
  pipe_stderr : bool;
  process_starts : wstring → bool;            (* CreateProcessW(path, ...) *)
  error_attributes : DWORD;     (* GetLastError() on each failure path *)
  error_copy : DWORD;
  error_create : DWORD;
  error_spawn : DWORD;
  inflight : option Poll        (* the trip the reader is in when it is joined *)
}.

(** How a call through the React bridge ends.  [Aborted]: std::terminate
    was called and the promise is never settled. *)
Inductive Promise (A : Type) :=
| Resolve (a : A)
| Reject (msg : string)
| Aborted.
Arguments Resolve {A} a.
Arguments Reject {A} msg.
Arguments Aborted {A}.

(** ** OutputReaderThread *)

Definition BUFFER_SIZE : nat := 4096.

Definition PeekNamedPipe (result : option DWORD) (h : HANDLE)
  : Act (option DWORD) :=
  record (EvPeekNamedPipe h);; mret result.

(** [ReadFile(h, buffer, n, &bytesRead, nullptr)]: at most n bytes are
    delivered, at the start of [buffer]; the rest of it is untouched. *)
Definition ReadFile (result : option (list ascii)) (h : HANDLE)
    (buffer : list ascii) (n : nat) : Act (option (list ascii * nat)) :=
  record (EvReadFile h (N.of_nat n));;
  mret (match result with
        | None => None
        | Some bytes =>
            let got := take n bytes in
            Some (got ++ drop (length got) buffer, length got)
        end).

Definition GetExitCodeProcess (result : option DWORD) (h : HANDLE)
  : Act (option DWORD) :=
  record (EvGetExitCodeProcess h);; mret result.

(** [m_reactContext.JSDispatcher().Post([this, output]{ OnEngineOutput(output); })] *)
Definition JSPost (output : string) : Act unit := record (EvJSPost output).

(** The body of [while (m_isRunning) { ... }]; the result tells whether
    [break] was taken. *)
Definition reader_body (e : Poll) : Act bool :=
  let buffer := resize BUFFER_SIZE NUL (stale e) in
  hOut ← member m_stdoutRead;
  available ← PeekNamedPipe (peek e) hOut;
  match available with
  | Some n =>
      if (0 <? n)%N then
        r ← ReadFile (pipe_read e) hOut buffer (BUFFER_SIZE - 1);
        match r with
        | Some (buffer, bytesRead) =>
            if (0 <? bytesRead)%nat then
              let buffer := <[bytesRead := NUL]> buffer in
              let output := c_str buffer in
              queue_push output;;
              handler ← member OnEngineOutput;
              when handler (JSPost output)
            else skip
        | None => skip
        end
      else skip
  | None => skip
  end;;
  (* std::this_thread::sleep_for(10ms) *)
  hProcess ← member m_processHandle;
  exitCode ← GetExitCodeProcess (exit_code e) hProcess;
  match exitCode with
  | Some code =>
      if negb (code =? STILL_ACTIVE)%N
      then set_isRunning false;; mret true
      else mret false
  | None => mret false
  end.

(** One trip of the reader thread: the loop test, then the body. *)
Definition reader_turn (e : Poll) : Act unit :=
  t ← member m_outputThread;
  match t with
  | Polling =>
      running ← member m_isRunning;
      if (running : bool) then
        broke ← reader_body e;
        when broke (set_outputThread Returned)
      else set_outputThread Returned
  | _ => skip
  end.

(** The thread function over the answers of its successive trips; the
    thread is still polling when the list runs out. *)
Fixpoint OutputReaderThread (polls : list Poll) : Act unit :=
  match polls with
  | [] => skip
  | e :: rest => reader_turn e;; OutputReaderThread rest
  end.

(** [m_outputThread.join()].  It is reached only after [m_isRunning = false]
    has been stored, so a reader that still polls finishes at most the trip
    it is in and leaves the loop at the next test of the flag. *)
Definition thread_join (inflight : option Poll) : Act unit :=
  t ← member m_outputThread;
  match t, inflight with
  | Polling, Some e => reader_body e;; skip
  | _, _ => skip
  end;;
  record EvThreadJoin;;
  set_outputThread NotAThread.

(** ** CleanupProcess *)

Definition is_null (h : HANDLE) : bool := (h =? nullptr)%N.

Definition CleanupProcess (inflight : option Poll) : Act unit :=
  set_isRunning false;;
  t ← member m_outputThread;
  when (joinable t) (thread_join inflight);;
  hProcess ← member m_processHandle;
  when (negb (is_null hProcess))
    (TerminateProcess hProcess;;
     WaitForSingleObject hProcess 1000;;
     CloseHandle hProcess;;
     set_processHandle nullptr);;
  hIn ← member m_stdinWrite;
  when (negb (is_null hIn)) (CloseHandle hIn;; set_stdinWrite nullptr);;
  hOut ← member m_stdoutRead;
  when (negb (is_null hOut)) (CloseHandle hOut;; set_stdoutRead nullptr);;
  hErr ← member m_stderrRead;
  when (negb (is_null hErr)) (CloseHandle hErr;; set_stderrRead nullptr);;
  set_outputQueue [].

(** ** CopyEngineToAppData *)

Definition GetFileAttributesW (exists_ : wstring → bool) (path : wstring)
  : Act bool :=
  record (EvGetFileAttributesW path);; mret (exists_ path).

Definition CopyFileW (succeeds : wstring → wstring → bool)
    (src dst : wstring) : Act bool :=
  record (EvCopyFileW src dst);; mret (succeeds src dst).

(** The result is the path of the copy, or the empty string on failure. *)
Definition CopyEngineToAppData (e : Launch) (sourcePath : wstring)
  : Act wstring :=
  record EvGetTempPathW;;
  let tempPathLen := length (tempPath e) in
  if (tempPathLen =? 0)%nat then
    OutputDebugStringW (L "Failed to get temp path");; mret []
  else
    let engineDir := tempPath e ++ L "ChessAppEngine\" in
    record (EvCreateDirectoryW engineDir);;
    let filename := filename_of sourcePath in
    let destPath := engineDir ++ filename in
    copied ← CopyFileW (copy_succeeds e) sourcePath destPath;
    if negb copied then
      OutputDebugStringW
        (L "Failed to copy engine file. Error code: " ++ L (dec (error_copy e)));;
      mret []
    else
      OutputDebugStringW (L "Copied engine to: " ++ destPath);;
      mret destPath.

(** ** CreateEngineProcess *)

Definition CreateEngineProcess (e : Launch) (enginePath : wstring)
  : Act bool :=
  (* pipe for stdin: CreatePipe(&stdinRead, &m_stdinWrite, &sa, 0) *)
  p ← CreatePipe (pipe_stdin e);
  match p with
  | None => mret false
  | Some (stdinRead, wr) =>
    set_stdinWrite wr;;
    hIn ← member m_stdinWrite;
    SetHandleInformation hIn;;
    (* pipe for stdout: CreatePipe(&m_stdoutRead, &stdoutWrite, &sa, 0) *)
    p ← CreatePipe (pipe_stdout e);
    match p with
    | None =>
      CloseHandle stdinRead;;
      (hIn ← member m_stdinWrite; CloseHandle hIn);;
      mret false
    | Some (rd, stdoutWrite) =>
      set_stdoutRead rd;;
      hOut ← member m_stdoutRead;
      SetHandleInformation hOut;;
      (* pipe for stderr: CreatePipe(&m_stderrRead, &stderrWrite, &sa, 0) *)
      p ← CreatePipe (pipe_stderr e);
      match p with
      | None =>
        CloseHandle stdinRead;;
        (hIn ← member m_stdinWrite; CloseHandle hIn);;
        (hOut ← member m_stdoutRead; CloseHandle hOut);;
        CloseHandle stdoutWrite;;
        mret false
      | Some (rd, stderrWrite) =>
        set_stderrRead rd;;
        hErr ← member m_stderrRead;
        SetHandleInformation hErr;;
        pi ← CreateProcessW (process_starts e enginePath) enginePath
               stdinRead stdoutWrite stderrWrite;
        CloseHandle stdinRead;;
        CloseHandle stdoutWrite;;
        CloseHandle stderrWrite;;
        match pi with
        | None =>
          OutputDebugStringW
            (L "CreateProcessW failed for path: " ++ enginePath
               ++ L " Error code: " ++ L (dec (error_create e)));;
          CleanupProcess (inflight e);;
          mret false
        | Some (hProcess, hThread) =>
          set_processHandle hProcess;;
          CloseHandle hThread;;
          mret true
        end
      end
    end
  end.

(** ** The exported methods *)

Definition wempty (s : wstring) : bool :=
  match s with [] => true | _ => false end.

Definition SpawnEngine (e : Launch) (enginePath : wstring)
  : Act (Promise bool) :=
  let filename := filename_of enginePath in
  let packageEnginePath := packagePath e ++ L "\Assets\engines\" ++ filename in
  OutputDebugStringW (L "Looking for engine at: " ++ packageEnginePath);;
  found ← GetFileAttributesW (file_exists e) packageEnginePath;
  if negb found then
    mret (Reject ("Engine not found in package. Error code: "
                  +:+ dec (error_attributes e)))
  else
    tempEnginePath ← CopyEngineToAppData e packageEnginePath;
    if wempty tempEnginePath then
      mret (Reject "Failed to copy engine to temp folder")
    else
      running ← member m_isRunning;
      when running (CleanupProcess (inflight e));;
      created ← CreateEngineProcess e tempEnginePath;
      if negb created then
        mret (Reject ("Failed to spawn engine process. Error code: "
                      +:+ dec (error_spawn e)))
      else
        set_isRunning true;;
        (* m_outputThread = std::thread(&EngineModule::OutputReaderThread, this):
           the new thread starts, then move assignment onto a joinable
           thread calls std::terminate *)
        record EvThreadStart;;
        t ← member m_outputThread;
        if joinable t then mret Aborted
        else set_outputThread Polling;; mret (Resolve true).

Definition SendCommand (written : option DWORD) (command : string)
  : Act (Promise bool) :=
  running ← member m_isRunning;
  hIn ← member m_stdinWrite;
  if negb running || is_null hIn then
    mret (Reject "Engine is not running")
  else
    let command :=
      if negb (string_empty command) && negb (Ascii.eqb (back command) LF)
      then push_back command LF
      else command in
    bytesWritten ← WriteFile written hIn command (to_DWORD (String.length command));
    match bytesWritten with
    | None => mret (Reject "Failed to write to engine stdin")
    | Some _ =>
        FlushFileBuffers hIn;;
        mret (Resolve true)
    end.

(** [while (!m_outputQueue.empty()) { ss << m_outputQueue.front();
    m_outputQueue.pop(); }] on the queue [q] and the stream [ss]. *)
Fixpoint drain (q : list string) (ss : string) : list string * string :=
  match q with
  | [] => ([], ss)
  | front :: popped => drain popped (ss +:+ front)
  end.

Definition ReadOutput : Act (Promise string) :=
  q ← member m_outputQueue;
  match q with
  | [] => mret (Resolve "")
  | _ =>
      let '(q', ss) := drain q "" in
      set_outputQueue q';;
      mret (Resolve ss)
  end.

Definition StopEngine (inflight : option Poll) : Act (Promise bool) :=
  CleanupProcess inflight;;
  mret (Resolve true).

Definition IsEngineRunning : Act (Promise bool) :=
  running ← member m_isRunning;
  mret (Resolve running).

(** ** The module as a transition system *)

(** What can happen to a module: a call of an exported method on the
    caller's side, or one trip of the reader thread. *)
Inductive Op :=
| CallSpawnEngine (e : Launch) (enginePath : wstring)
| CallSendCommand (written : option DWORD) (command : string)
| CallReadOutput
| CallStopEngine (inflight : option Poll)
| CallIsEngineRunning
| ReaderTrip (e : Poll).

Definition settled {A} (p : Promise A) (σ : Sys) : option Sys :=
  match p with
  | Aborted => None
  | _ => Some σ
  end.

(** [None]: the process was terminated. *)
Definition step (op : Op) (σ : Sys) : option Sys :=
  match op with
  | CallSpawnEngine e enginePath =>
      let '(p, σ') := SpawnEngine e enginePath σ in settled p σ'
  | CallSendCommand written command =>
      let '(p, σ') := SendCommand written command σ in settled p σ'
  | CallReadOutput => let '(p, σ') := ReadOutput σ in settled p σ'
  | CallStopEngine inflight =>
      let '(p, σ') := StopEngine inflight σ in settled p σ'
  | CallIsEngineRunning => let '(p, σ') := IsEngineRunning σ in settled p σ'
  | ReaderTrip e => Some (reader_turn e σ).2
  end.


(** ** Vocabulary of the statements *)

(** The null configuration: no process, no pipe, no thread. *)
Definition null_configuration (m : EngineModule) : Prop :=
  m_processHandle m = nullptr ∧ m_stdinWrite m = nullptr ∧
  m_stdoutRead m = nullptr ∧ m_stderrRead m = nullptr.

(** No session: the null configuration, not running, no reader thread,
    nothing queued. *)
Definition no_session (m : EngineModule) : Prop :=
  null_configuration m ∧ m_isRunning m = false ∧
  m_outputThread m = NotAThread ∧ m_outputQueue m = [].

(** A running session: the flag is set, the four handles are valid and the
    reader polls. *)
Definition running_session (m : EngineModule) : Prop :=
  m_isRunning m = true ∧ m_outputThread m = Polling ∧
  m_processHandle m ≠ nullptr ∧ m_stdinWrite m ≠ nullptr ∧
  m_stdoutRead m ≠ nullptr ∧ m_stderrRead m ≠ nullptr.

(** The calls an action made: the part of the log it added. *)
Definition emitted (σ σ' : Sys) : list OsCall :=
  drop (length (os_log (os σ))) (os_log (os σ')).

Definition is_CreateProcessW (ev : OsCall) : bool :=
  match ev with EvCreateProcessW _ _ _ _ _ => true | _ => false end.

(** The first n bytes of a string. *)
Definition first_bytes (n : N) (s : string) : string :=
  substring 0 (N.to_nat n) s.

(** The bytes that one logged call put into the pipe behind [h]. *)
Definition bytes_into (h : HANDLE) (ev : OsCall) : string :=
  match ev with
  | EvWriteFile h' data nBytes (Some accepted) =>
      if decide (h' = h) then first_bytes accepted (first_bytes nBytes data)
      else ""
  | _ => ""
  end.

(** Everything written so far to the pipe behind [h]: what the child reads
    on its standard input. *)
Definition child_input (h : HANDLE) (log : list OsCall) : string :=
  foldr (λ ev rest, bytes_into h ev +:+ rest) "" log.

(** The command as SendCommand is found to send it: unchanged when it is empty or
    ends in a line feed, with one line feed added otherwise. *)
Definition terminated (c : string) : string :=
  match c with
  | "" => ""
  | _ => if Ascii.eqb (back c) LF then c else c +:+ String LF ""
  end.

(** The concatenation of queued chunks, front first. *)
Definition concat_chunks (chunks : list string) : string :=
  foldr String.append "" chunks.

(** The drainer enqueueing a sequence of chunks in arrival order. *)
Definition enqueue_all (chunks : list string) : Act unit :=
  foldr (λ chunk rest, queue_push chunk;; rest) skip chunks.

(** The bytes of a read up to its first NUL. *)
Fixpoint up_to_NUL (bytes : list ascii) : list ascii :=
  match bytes with
  | [] => []
  | c :: r => if is_NUL c then [] else c :: up_to_NUL r
  end.

(** The answers of a trip in which the process is seen to have exited. *)
Definition exit_observed (e : Poll) : Prop :=
  ∃ code, exit_code e = Some code ∧ code ≠ STILL_ACTIVE.

(** The answers of a SpawnEngine call that gets as far as the restart:
    the engine file is found in the package and the copy is made. *)
Definition reaches_restart (e : Launch) (enginePath : wstring) : Prop :=
  let packageEnginePath :=
    packagePath e ++ L "\Assets\engines\" ++ filename_of enginePath in
  file_exists e packageEnginePath = true ∧
  tempPath e ≠ [] ∧
  copy_succeeds e packageEnginePath
    (tempPath e ++ L "ChessAppEngine\" ++ filename_of enginePath) = true.

(** The path a logged call launches, if it is a process creation. *)
Definition launched (ev : OsCall) : option wstring :=
  match ev with
  | EvCreateProcessW path _ _ _ _ => Some path
  | _ => None
  end.

(** The chunk a logged call hands to the JavaScript listener, if any. *)
Definition posted (ev : OsCall) : option string :=
  match ev with
  | EvJSPost output => Some output
  | _ => None
  end.

(** The chunk made of the bytes of one read: at most [BUFFER_SIZE - 1] of
    them are taken, and of these the ones before the first NUL. *)
Definition chunk_of (bytes : list ascii) : string :=
  string_of_list_ascii (up_to_NUL (take (BUFFER_SIZE - 1) bytes)).

(** The chunk that a trip with the answers [e] delivers, if it delivers
    one: the pipe reports bytes available and the read returns some. *)
Definition delivered (e : Poll) : option string :=
  match peek e, pipe_read e with
  | Some n, Some bytes =>
      if (0 <? n)%N && (0 <? length (take (BUFFER_SIZE - 1) bytes))
      then Some (chunk_of bytes) else None
  | _, _ => None
  end.

(** The calls by which SpawnEngine finds the engine in the package and
    copies it, in the order it makes them. *)
Definition resolving (e : Launch) (enginePath : wstring) : list OsCall :=
  let pkgPath :=
    packagePath e ++ L "\Assets\engines\" ++ filename_of enginePath in
  let dest := tempPath e ++ L "ChessAppEngine\" ++ filename_of enginePath in
  [EvOutputDebugStringW (L "Looking for engine at: " ++ pkgPath);
   EvGetFileAttributesW pkgPath;
   EvGetTempPathW;
   EvCreateDirectoryW (tempPath e ++ L "ChessAppEngine\");
   EvCopyFileW pkgPath dest;
   EvOutputDebugStringW (L "Copied engine to: " ++ dest)].

(** ** Sample states *)

Definition blank_world : World := mkWorld [] ∅ 1%positive.

(** A module on which nothing has been called yet. *)
Definition idle : Sys := mkSys (fresh_module true) blank_world.

(** A launch in which every call to the operating system succeeds. *)
Definition sample_launch : Launch :=
  mkLaunch (L "C:\pkg") (λ _, true) (L "C:\tmp\") (λ _ _, true)
    true true true (λ _, true) 2%N 3%N 4%N 5%N None.

(** The same launch, except that the second CreatePipe (stdout) fails. *)
Definition stdout_pipe_fails : Launch :=
  mkLaunch (L "C:\pkg") (λ _, true) (L "C:\tmp\") (λ _ _, true)
    true false true (λ _, true) 2%N 3%N 4%N 5%N None.

(** The module after a successful SpawnEngine. *)
Definition live : Sys := (SpawnEngine sample_launch (L "engine.exe") idle).2.

(** A trip whose read delivers "ok", a NUL, and "junk". *)
Definition sample_poll : Poll :=
  mkPoll (Some 8%N)
    (Some (list_ascii_of_string "ok" ++ NUL :: list_ascii_of_string "junk"))
    [] (Some STILL_ACTIVE).

(** A trip that finds the pipe empty and the process gone with code 0. *)
Definition exit_poll : Poll := mkPoll (Some 0%N) None [] (Some 0%N).

(** ** Vocabulary of the further properties *)

(** The allocator is ahead of every open handle, so that a handle it
    issues is not one already open. *)
Definition world_ok (w : World) : Prop :=
  ∀ p, Npos p ∈ open_handles w → (p < next_handle w)%positive.

(** The answers of a launch in which the engine is found and copied, the
    three pipes are created and the process starts. *)
Definition launch_succeeds (e : Launch) (enginePath : wstring) : Prop :=
  reaches_restart e enginePath ∧
  pipe_stdin e = true ∧ pipe_stdout e = true ∧ pipe_stderr e = true ∧
  process_starts e
    (tempPath e ++ L "ChessAppEngine\" ++ filename_of enginePath) = true.

(** Whether the trip with the answers [e] sees the process gone: the test
    [GetExitCodeProcess(...) && exitCode != STILL_ACTIVE]. *)
Definition exits (e : Poll) : bool :=
  match exit_code e with
  | Some code => negb (code =? STILL_ACTIVE)%N
  | None => false
  end.

(** The trips a reader makes of those offered: up to and including the
    first one that sees the process gone. *)
Fixpoint until_exit (polls : list Poll) : list Poll :=
  match polls with
  | [] => []
  | e :: rest => e :: (if exits e then [] else until_exit rest)
  end.

(** Sending commands one after the other, the pipe accepting each one in
    full. *)
Definition send_all (commands : list string) : Act unit :=
  foldr (λ c rest,
           SendCommand (Some (to_DWORD (String.length (terminated c)))) c;;
           rest)
        skip commands.

(** The handle a logged call closes, and the pipe it creates. *)
Definition closed (ev : OsCall) : option HANDLE :=
  match ev with
  | EvCloseHandle h => Some h
  | _ => None
  end.

(** The module after the reader of the live session saw the process exit:
    nobody called StopEngine. *)
Definition exited : Sys := (reader_turn exit_poll live).2.

(** A launch in which the engine file is not in the package. *)
Definition engine_missing : Launch :=
  mkLaunch (L "C:\pkg") (λ _, false) (L "C:\tmp\") (λ _ _, true)
    true true true (λ _, true) 2%N 3%N 4%N 5%N None.

(** A launch in which CreateProcessW fails. *)
Definition process_fails : Launch :=
  mkLaunch (L "C:\pkg") (λ _, true) (L "C:\tmp\") (λ _ _, true)
    true true true (λ _, false) 2%N 3%N 4%N 5%N None.

(** A trip in which PeekNamedPipe fails and the process is still active. *)
Definition failed_poll : Poll := mkPoll None None [] (Some STILL_ACTIVE).


(** * Proofs *)

Set Warnings "-clear-no-such-hyp".

(** Symbolic execution of the primitive actions. *)
Ltac run :=
  cbv beta iota zeta delta
    [when skip member assign
     set_processHandle set_stdinWrite set_stdoutRead set_stderrRead
     set_outputThread set_isRunning set_outputQueue queue_push queue_pop
     record new_handle release OutputDebugStringW CreatePipe
     SetHandleInformation CloseHandle CreateProcessW TerminateProcess
     WaitForSingleObject WriteFile FlushFileBuffers PeekNamedPipe ReadFile
     GetExitCodeProcess JSPost GetFileAttributesW CopyFileW
     mbind mret Act_bind Act_ret
     this os os_log open_handles next_handle OnEngineOutput m_processHandle
     m_stdinWrite m_stdoutRead m_stderrRead m_outputThread m_isRunning
     m_outputQueue joinable negb andb orb string_empty push_back fst snd].

(** ** Strings *)

Lemma append_cons a s1 s2 : String a s1 +:+ s2 = String a (s1 +:+ s2).
Proof. done. Qed.

Lemma append_empty_r s : s +:+ "" = s.
Proof. induction s as [|a s IH]; [done|]. by rewrite append_cons, IH. Qed.

Lemma append_assoc s1 s2 s3 : (s1 +:+ s2) +:+ s3 = s1 +:+ s2 +:+ s3.
Proof. induction s1 as [|a s1 IH]; [done|]. by rewrite !append_cons, IH. Qed.

Lemma length_append s1 s2 :
  String.length (s1 +:+ s2) = String.length s1 + String.length s2.
Proof.
  induction s1 as [|a s1 IH]; [done|]. rewrite append_cons. simpl.
  by rewrite IH.
Qed.

Lemma first_bytes_all s : first_bytes (N.of_nat (String.length s)) s = s.
Proof.
  unfold first_bytes. rewrite Nat2N.id.
  induction s as [|c s IH]; simpl; [done|]. by rewrite IH.
Qed.

Lemma length_terminated c :
  String.length (terminated c) ≤ S (String.length c).
Proof.
  unfold terminated. destruct c as [|a c]; [simpl; lia|].
  destruct (Ascii.eqb _ _); [lia|]. rewrite length_append. simpl. lia.
Qed.

Lemma to_DWORD_small n : (N.of_nat n < DWORD_MAX)%N → to_DWORD n = N.of_nat n.
Proof. intros. unfold to_DWORD. by apply N.mod_small. Qed.

(** ** Paths *)

Section FilePaths.
Variable chars : wstring.

Lemma find_last_of_from_app s1 s2 i found :
  find_last_of_from chars (s1 ++ s2) i found =
  find_last_of_from chars s2 (i + length s1) (find_last_of_from chars s1 i found).
Proof.
  revert i found. induction s1 as [|c s1 IH]; intros i found; simpl.
  - by rewrite Nat.add_0_r.
  - rewrite IH. f_equal. lia.
Qed.

Lemma find_last_of_from_absent s i found :
  Forall (λ c, c ∉ chars) s → find_last_of_from chars s i found = found.
Proof.
  intros H. revert i found. induction H as [|c s Hc _ IH]; intros i found; simpl; [done|].
  rewrite IH. by rewrite bool_decide_eq_false_2.
Qed.

(** Where the last separator is: the text splits around it. *)
Lemma find_last_of_split s :
  match find_last_of s chars with
  | None => Forall (λ c, c ∉ chars) s
  | Some i => ∃ c rest, s = take i s ++ c :: rest ∧ i < length s ∧ c ∈ chars ∧ Forall (λ c, c ∉ chars) rest ∧ drop (i + 1) s = rest
  end.
Proof.
  unfold find_last_of. induction s as [|c s IH] using rev_ind; simpl; [constructor|].
  rewrite find_last_of_from_app. simpl.
  case_bool_decide as Hc.
  - exists c, []. rewrite length_app. simpl. repeat split; try done; try lia.
    + by rewrite take_app_length.
    + rewrite drop_ge; [done|]. rewrite length_app. simpl. lia.
  - destruct (find_last_of_from chars s 0 None) as [i|].
    + destruct IH as (c' & rest & Hs & Hi & Hc' & Hrest & Hdrop).
      exists c', (rest ++ [c]). rewrite length_app. repeat split; try done; try lia.
      * rewrite take_app_le by lia. remember (take i s) as t.
        rewrite Hs. by rewrite <- app_assoc.
      * apply Forall_app. split; [done|]. by constructor.
      * rewrite drop_app_le by lia. by rewrite Hdrop.
    + apply Forall_app. split; [done|]. by constructor.
Qed.
End FilePaths.

Lemma filename_of_no_separator path :
  Forall (λ c, c ∉ separators) (filename_of path).
Proof.
  unfold filename_of, substr.
  pose proof (find_last_of_split separators path) as H.
  destruct (find_last_of path separators) as [i|]; [|done].
  destruct H as (c & rest & _ & _ & _ & Hrest & ->). done.
Qed.

Lemma filename_of_after_separator dir c name :
  c ∈ separators → Forall (λ c, c ∉ separators) name →
  filename_of (dir ++ c :: name) = name.
Proof.
  intros Hc Hname. unfold filename_of, find_last_of, substr.
  rewrite find_last_of_from_app. simpl.
  rewrite bool_decide_eq_true_2 by done.
  rewrite find_last_of_from_absent by done.
  replace (dir ++ c :: name) with ((dir ++ [c]) ++ name)
    by (by rewrite <- app_assoc).
  rewrite drop_app_length'; [done|]. rewrite length_app. simpl. lia.
Qed.

Lemma filename_of_idem dir c path :
  c ∈ separators → filename_of (dir ++ c :: filename_of path) = filename_of path.
Proof. intros. apply filename_of_after_separator; [done|apply filename_of_no_separator]. Qed.

Lemma filename_of_package pkg path :
  filename_of (pkg ++ L "\Assets\engines\" ++ filename_of path) =
  filename_of path.
Proof.
  change (L "\Assets\engines\") with (L "\Assets\engines" ++ [92%N]).
  rewrite <- app_assoc, app_assoc. simpl.
  apply filename_of_idem. unfold separators. vm_compute. set_solver.
Qed.

(** ** The reader's buffer *)

Lemma c_str_terminated got rest :
  c_str (got ++ NUL :: rest) = string_of_list_ascii (up_to_NUL got).
Proof.
  induction got as [|c got IH]; simpl; [done|].
  destruct (is_NUL c); [done|]. by rewrite IH.
Qed.

Lemma buffer_chunk got buffer :
  length got < length buffer →
  c_str (<[length got := NUL]> (got ++ drop (length got) buffer)) =
  string_of_list_ascii (up_to_NUL got).
Proof.
  intros Hlen. rewrite insert_app_r_alt by lia. rewrite Nat.sub_diag.
  destruct (drop (length got) buffer) as [|b rest] eqn:Hdrop.
  - apply (f_equal length) in Hdrop. rewrite length_drop in Hdrop. simpl in Hdrop. lia.
  - simpl. apply c_str_terminated.
Qed.


Lemma reader_body_spec e l hp hin hout herr t r q log open next :
  ∃ b r' calls,
    reader_body e
      (mkSys (mkEngineModule l hp hin hout herr t r q) (mkWorld log open next)) =
    (b, mkSys (mkEngineModule l hp hin hout herr t r' (q ++ option_list (delivered e)))
          (mkWorld (log ++ calls) open next))
    ∧ Forall (λ ev, is_CreateProcessW ev = false) calls
    ∧ omap posted calls = (if l then option_list (delivered e) else [])
    ∧ ((b = false ∧ r' = r ∧ ¬ exit_observed e)
       ∨ (b = true ∧ r' = false ∧ exit_observed e)).
Proof.
  assert (∀ bytes : list ascii, length (take (BUFFER_SIZE - 1) bytes)
                   < length (resize BUFFER_SIZE NUL (stale e))) as Hfit.
  { intros bytes. rewrite length_resize, length_take. unfold BUFFER_SIZE. lia. }
  unfold reader_body, delivered, chunk_of, exit_observed. run.
  destruct (peek e) as [n|]; [destruct (0 <? n)%N|];
  destruct (pipe_read e) as [bytes|]; run;
    try (rewrite buffer_chunk by apply Hfit);
    try destruct (0 <? length (take _ bytes)); try destruct l; run;
  destruct (exit_code e) as [c|]; try destruct (N.eqb_spec c STILL_ACTIVE); run;
  rewrite <- ?app_assoc, ?app_nil_r; cbn [app];
  do 3 eexists; (split; [reflexivity|]); (split; [by repeat constructor|]);
  (split; [done|]); clear Hfit;
  first [ left; split_and!; [done|done|]; intros (? & ? & ?); congruence
        | right; split_and!; [done|done|]; eauto ].
Qed.

(** ** Joining the reader, and CleanupProcess *)

Lemma is_null_spec h : reflect (h = nullptr) (is_null h).
Proof. apply N.eqb_spec. Qed.

Lemma not_create_launched calls :
  Forall (λ ev, is_CreateProcessW ev = false) calls → omap launched calls = [].
Proof.
  induction 1 as [|ev calls Hev _ IH]; [done|].
  destruct ev; simplify_eq/=; done.
Qed.

Lemma thread_join_frame i l hp hin hout herr t r q log open next :
  ∃ r' q' calls,
    thread_join i
      (mkSys (mkEngineModule l hp hin hout herr t r q) (mkWorld log open next)) =
    (tt, mkSys (mkEngineModule l hp hin hout herr NotAThread r' q')
           (mkWorld (log ++ calls) open next))
    ∧ (r' = true → r = true)
    ∧ Forall (λ ev, is_CreateProcessW ev = false) calls
    ∧ EvThreadJoin ∈ calls.
Proof.
  unfold thread_join. destruct t, i as [e|]; run;
    try (exists r, q, [EvThreadJoin]; repeat split;
         [done|by repeat constructor|set_solver]).
  destruct (reader_body_spec e l hp hin hout herr Polling r q log open next)
    as (b & r' & calls & -> & Hcalls & _ & Hr).
  run. eexists r', _, (calls ++ [EvThreadJoin]). rewrite app_assoc.
  repeat split; [naive_solver| |set_solver].
  apply Forall_app; split; [done|by repeat constructor].
Qed.

Lemma CleanupProcess_spec i l hp hin hout herr t r q log open next :
  ∃ calls open',
    CleanupProcess i
      (mkSys (mkEngineModule l hp hin hout herr t r q) (mkWorld log open next)) =
    (tt, mkSys (fresh_module l) (mkWorld (log ++ calls) open' next))
    ∧ Forall (λ ev, is_CreateProcessW ev = false) calls
    ∧ (joinable t = true → EvThreadJoin ∈ calls)
    ∧ (hp ≠ nullptr → EvTerminateProcess hp ∈ calls ∧ EvCloseHandle hp ∈ calls)
    ∧ (hin ≠ nullptr → EvCloseHandle hin ∈ calls)
    ∧ (hout ≠ nullptr → EvCloseHandle hout ∈ calls)
    ∧ (herr ≠ nullptr → EvCloseHandle herr ∈ calls)
    ∧ open' ⊆ open
    ∧ (∀ h, h ∈ [hp; hin; hout; herr] → h ≠ nullptr → h ∉ open')
    ∧ (t = NotAThread → hp = nullptr → hin = nullptr → hout = nullptr →
       herr = nullptr → calls = [] ∧ open' = open).
Proof.
  destruct (thread_join_frame i l hp hin hout herr t false q log open next)
    as (r' & q' & pre & Heq & Hr & Hpre & Hin).
  destruct r'; [by specialize (Hr eq_refl)|clear Hr].
  unfold CleanupProcess; destruct t; run; [| rewrite Heq ..];
    destruct (is_null_spec hp), (is_null_spec hin), (is_null_spec hout),
      (is_null_spec herr); subst; run; rewrite <- ?app_assoc; cbn [app];
    first [ do 2 eexists; split; [reflexivity|]
          | exists [], open; split; [by rewrite app_nil_r|] ];
    (split; [repeat (apply Forall_app; split); by repeat constructor|]);
    split_and!; try done; try set_solver.
Qed.

(** ** CreateEngineProcess *)

Lemma CreateEngineProcess_spec e path l hp hin hout herr t r q log open next :
  ∃ b m' calls open' next',
    CreateEngineProcess e path
      (mkSys (mkEngineModule l hp hin hout herr t r q) (mkWorld log open next)) =
    (b, mkSys m' (mkWorld (log ++ calls) open' next')) ∧
    ((pipe_stdin e = false ∧ b = false ∧ omap launched calls = [] ∧
      m' = mkEngineModule l hp hin hout herr t r q)
     ∨ (pipe_stdin e = true ∧ pipe_stdout e = false ∧ b = false ∧
        omap launched calls = [] ∧
        ∃ wr, m' = mkEngineModule l hp (Npos wr) hout herr t r q ∧
              (Npos wr ∉ open'))
     ∨ (pipe_stdin e = true ∧ pipe_stdout e = true ∧ pipe_stderr e = false ∧
        b = false ∧ omap launched calls = [] ∧
        ∃ wr rd, m' = mkEngineModule l hp (Npos wr) (Npos rd) herr t r q ∧
                 (Npos wr ∉ open') ∧ (Npos rd ∉ open'))
     ∨ (pipe_stdin e = true ∧ pipe_stdout e = true ∧ pipe_stderr e = true ∧
        process_starts e path = false ∧
        b = false ∧ omap launched calls = [path] ∧ m' = fresh_module l)
     ∨ (pipe_stdin e = true ∧ pipe_stdout e = true ∧ pipe_stderr e = true ∧
        process_starts e path = true ∧
        b = true ∧ omap launched calls = [path] ∧
        ∃ pr wr rd rd',
          m' = mkEngineModule l (Npos pr) (Npos wr) (Npos rd) (Npos rd') t r q)).
Proof.
  unfold CreateEngineProcess.
  destruct (pipe_stdin e); run.
  2:{ eexists _, _, _, _, _. split; [reflexivity|]. left. done. }
  destruct (pipe_stdout e); run.
  2:{ rewrite <- ?app_assoc; cbn [app]. eexists _, _, _, _, _.
      split; [reflexivity|]. right; left. split_and!; try done.
      eexists. split; [done|]. set_solver. }
  destruct (pipe_stderr e); run.
  2:{ rewrite <- ?app_assoc; cbn [app]. eexists _, _, _, _, _.
      split; [reflexivity|]. right; right; left. split_and!; try done.
      eexists _, _. split; [done|]. set_solver. }
  destruct (process_starts e path); run.
  - rewrite <- ?app_assoc; cbn [app]. eexists _, _, _, _, _.
    split; [reflexivity|]. do 4 right. split_and!; try done. eauto.
  - match goal with
    | |- context [CleanupProcess ?i
                    (mkSys (mkEngineModule ?l ?a ?b ?c ?d ?t ?r ?q)
                       (mkWorld ?lg ?o ?n))] =>
        destruct (CleanupProcess_spec i l a b c d t r q lg o n)
          as (calls & open' & -> & Hcalls & _)
    end.
    run. rewrite <- ?app_assoc; cbn [app]. eexists _, _, _, _, _.
    split; [reflexivity|]. do 3 right; left. split_and!; try done.
    cbn. by rewrite (not_create_launched calls).
Qed.

(** ** SpawnEngine *)

Lemma restart_spec i l hp hin hout herr t r q log open next :
  let m := mkEngineModule l hp hin hout herr t r q in
  ∃ calls open',
    when r (CleanupProcess i) (mkSys m (mkWorld log open next)) =
    (tt, mkSys (if r then fresh_module l else m)
           (mkWorld (log ++ calls) open' next)) ∧
    Forall (λ ev, is_CreateProcessW ev = false) calls ∧
    (r = true →
       (joinable t = true → EvThreadJoin ∈ calls) ∧
       (hp ≠ nullptr →
          EvTerminateProcess hp ∈ calls ∧ EvCloseHandle hp ∈ calls) ∧
       (hin ≠ nullptr → EvCloseHandle hin ∈ calls) ∧
       (hout ≠ nullptr → EvCloseHandle hout ∈ calls) ∧
       (herr ≠ nullptr → EvCloseHandle herr ∈ calls)).
Proof.
  intros m. subst m. destruct r; run.
  - destruct (CleanupProcess_spec i l hp hin hout herr t true q log open next)
      as (calls & open' & -> & Hcalls & Hj & Hp & Hi & Ho & He & _).
    eexists _, _. split; [reflexivity|]. done.
  - exists [], open. rewrite app_nil_r. done.
Qed.

Lemma SpawnEngine_spec e path l hp hin hout herr t r q log open next :
  let m := mkEngineModule l hp hin hout herr t r q in
  let m0 := if r then fresh_module l else m in
  let dest := tempPath e ++ L "ChessAppEngine\" ++ filename_of path in
  ∃ p m' calls open' next',
    SpawnEngine e path (mkSys m (mkWorld log open next)) =
    (p, mkSys m' (mkWorld (log ++ calls) open' next')) ∧
    ((¬ reaches_restart e path ∧ m' = m ∧ (∃ msg, p = Reject msg) ∧
      omap launched calls = [] ∧ open' = open ∧ next' = next ∧
      EvGetFileAttributesW
        (packagePath e ++ L "\Assets\engines\" ++ filename_of path) ∈ calls)
     ∨ (reaches_restart e path ∧
        (∃ mid post, calls = resolving e path ++ mid ++ post ∧
           Forall (λ ev, is_CreateProcessW ev = false) mid ∧
           (omap launched post = [] ∨ omap launched post = [dest]) ∧
           (r = true →
              (joinable t = true → EvThreadJoin ∈ mid) ∧
              (hp ≠ nullptr →
                 EvTerminateProcess hp ∈ mid ∧ EvCloseHandle hp ∈ mid) ∧
              (hin ≠ nullptr → EvCloseHandle hin ∈ mid) ∧
              (hout ≠ nullptr → EvCloseHandle hout ∈ mid) ∧
              (herr ≠ nullptr → EvCloseHandle herr ∈ mid))) ∧
        (((∃ msg, p = Reject msg) ∧ m_isRunning m' = false ∧
          (m' = m0 ∨ m_stdinWrite m' ≠ nullptr ∨ m' = fresh_module l))
         ∨ (p = Resolve true ∧ m_outputThread m0 = NotAThread ∧
            ∃ pr wr rd rd',
              m' = mkEngineModule l (Npos pr) (Npos wr) (Npos rd) (Npos rd')
                     Polling true (m_outputQueue m0))
         ∨ (p = Aborted ∧ joinable (m_outputThread m0) = true)))).
Proof.
  intros m m0 dest. unfold SpawnEngine.
  unfold CopyEngineToAppData. rewrite filename_of_package.
  set (pkgPath := packagePath e ++ L "\Assets\engines\" ++ filename_of path).
  rewrite <- (app_assoc (tempPath e)). fold dest.
  run.
  destruct (file_exists e pkgPath) eqn:Hfound; run.
  2:{ eexists _, _, _, _, _. split; [by rewrite <- ?app_assoc|]. left.
      split_and!; eauto; [|fold pkgPath; set_solver].
      unfold reaches_restart; fold pkgPath; intros (? & _); congruence. }
  destruct (Nat.eqb_spec (length (tempPath e)) 0) as [Htmp|Htmp]; run.
  { eexists _, _, _, _, _. split; [by rewrite <- ?app_assoc|]. left.
    split_and!; eauto; [|fold pkgPath; set_solver].
    unfold reaches_restart; intros (_ & ? & _). by destruct (tempPath e). }
  assert (tempPath e ≠ []) as Htmp' by (by destruct (tempPath e)).
  destruct (copy_succeeds e pkgPath dest) eqn:Hcopy; run.
  2:{ unfold wempty. run.
      eexists _, _, _, _, _. split; [by rewrite <- ?app_assoc|]. left.
      split_and!; eauto; [|fold pkgPath; set_solver].
      unfold reaches_restart; fold pkgPath dest; intros (_ & _ & ?).
      congruence. }
  assert (wempty dest = false) as ->.
  { subst dest. by destruct (tempPath e). }
  assert (reaches_restart e path) as Hreach by done.
  match goal with |- context [mkWorld ?lg open next] =>
    destruct (restart_spec (inflight e) l hp hin hout herr t r q lg open next)
      as (mid & open1 & Hclean & Hmid & Hstop) end.
  fold m m0 in Hclean. subst m. revert Hclean. run. intros ->.
  assert (m_isRunning m0 = false) as Hr0 by (subst m0; by destruct r).
  assert (OnEngineOutput m0 = l) as Hl0 by (subst m0; by destruct r).
  destruct m0 as [l0 hp0 hin0 hout0 herr0 t0 r0 q0];
    simpl in Hr0, Hl0; subst r0 l0.
  match goal with
  | |- context [CreateEngineProcess _ _ (mkSys _ (mkWorld ?lg _ _))] =>
      destruct (CreateEngineProcess_spec e dest l hp0 hin0 hout0 herr0 t0
                  false q0 lg open1 next)
        as (b & m' & calls & open' & next' & -> & Hcase)
  end.
  assert (∀ tail,
    ((((((log ++ [EvOutputDebugStringW (L "Looking for engine at: " ++ pkgPath)])
           ++ [EvGetFileAttributesW pkgPath]) ++ [EvGetTempPathW])
           ++ [EvCreateDirectoryW (tempPath e ++ L "ChessAppEngine\")])
           ++ [EvCopyFileW pkgPath dest])
           ++ [EvOutputDebugStringW (L "Copied engine to: " ++ dest)]) ++ tail
    = log ++ resolving e path ++ tail) as Hlog.
  { intros tail. by rewrite <- !app_assoc. }
  destruct Hcase as
    [(_ & -> & Hl & ->)
    |[(_ & _ & -> & Hl & wr & -> & _)
    |[(_ & _ & _ & -> & Hl & wr & rd & -> & _)
    |[(_ & _ & _ & _ & -> & Hl & ->)
    |(_ & _ & _ & _ & -> & Hl & pr & wr & rd & rd' & ->)]]]]; run.
  1-4: rewrite <- (app_assoc _ mid), Hlog;
       eexists _, _, _, _, _; (split; [reflexivity|]); right;
       (split; [exact Hreach|]);
       (split; [eexists mid, _; split_and!; eauto|]); left;
       split_and!; eauto.
  destruct t0; run; rewrite <- (app_assoc _ calls), <- (app_assoc _ mid), Hlog;
    eexists _, _, _, _, _; (split; [reflexivity|]); right;
    (split; [exact Hreach|]);
    (split; [eexists mid, _; split_and!; eauto;
             rewrite omap_app, Hl; by right|]);
    right; [left|right..]; split_and!; eauto.
Qed.

(** ** The log *)

Lemma emitted_app m m' log calls open open' next next' :
  emitted (mkSys m (mkWorld log open next))
    (mkSys m' (mkWorld (log ++ calls) open' next')) = calls.
Proof. unfold emitted. simpl. by rewrite drop_app_length. Qed.

Lemma child_input_app h log calls :
  child_input h (log ++ calls) = child_input h log +:+ child_input h calls.
Proof.
  unfold child_input. induction log as [|ev log IH]; simpl; [done|].
  by rewrite IH, append_assoc.
Qed.

(** ** SendCommand *)

Lemma SendCommand_spec written c l hp hin hout herr t q log open next :
  hin ≠ nullptr →
  SendCommand written c
    (mkSys (mkEngineModule l hp hin hout herr t true q) (mkWorld log open next)) =
  (match written with
   | None => Reject "Failed to write to engine stdin"
   | Some _ => Resolve true
   end,
   mkSys (mkEngineModule l hp hin hout herr t true q)
     (mkWorld
        (log ++ EvWriteFile hin (terminated c)
                  (to_DWORD (String.length (terminated c))) written
                :: match written with
                   | None => []
                   | Some _ => [EvFlushFileBuffers hin]
                   end) open next)).
Proof.
  intros Hin. unfold SendCommand, terminated. run.
  destruct (is_null_spec hin) as [|_]; [done|].
  destruct c as [|a c]; run;
    [|destruct (Ascii.eqb (back (String a c)) LF); run];
    destruct written; run; by rewrite <- ?app_assoc.
Qed.

Lemma SendCommand_idle written c σ :
  m_isRunning (this σ) = false ∨ m_stdinWrite (this σ) = nullptr →
  SendCommand written c σ = (Reject "Engine is not running", σ).
Proof.
  destruct σ as [[l hp hin hout herr t r q] [log open next]]. simpl.
  unfold SendCommand. run. intros [->| ->]; [done|]. by destruct r.
Qed.

Lemma SendCommand_this written c σ :
  this (SendCommand written c σ).2 = this σ.
Proof.
  destruct (m_isRunning (this σ)) eqn:Hr.
  - destruct (is_null_spec (m_stdinWrite (this σ))) as [Hn|Hn].
    + rewrite SendCommand_idle by auto. done.
    + destruct σ as [[l hp hin hout herr t r q] [log open next]].
      simpl in *. subst r. by rewrite SendCommand_spec.
  - rewrite SendCommand_idle by auto. done.
Qed.

(** C1.  SendCommand on a running session hands the command to the
    child's input unchanged when it is empty or already ends in a line
    feed, and followed by exactly one line feed otherwise: nothing is added
    to a terminated command, and an empty command writes zero bytes. *)
Theorem SendCommand_writes_terminated_command written c σ :
  m_isRunning (this σ) = true →
  m_stdinWrite (this σ) ≠ nullptr →
  (N.of_nat (String.length c) < DWORD_MAX - 1)%N →
  let h := m_stdinWrite (this σ) in
  let sent := terminated c in
  let σ' := (SendCommand written c σ).2 in
  (∃ flush, emitted σ σ' =
     EvWriteFile h sent (N.of_nat (String.length sent)) written :: flush ∧
     Forall (λ ev, bytes_into h ev = "") flush) ∧
  (written = Some (N.of_nat (String.length sent)) →
     child_input h (os_log (os σ')) = child_input h (os_log (os σ)) +:+ sent) ∧
  (c = "" → sent = "") ∧
  (c ≠ "" → back c = LF → sent = c) ∧
  (c ≠ "" → back c ≠ LF → sent = c +:+ String LF "").
Proof.
  destruct σ as [[l hp hin hout herr t r q] [log open next]]. simpl.
  intros -> Hin Hlen.
  rewrite SendCommand_spec by done. cbn [snd]. rewrite emitted_app. simpl.
  rewrite to_DWORD_small.
  2:{ pose proof (length_terminated c). unfold DWORD_MAX in *. lia. }
  split_and!.
  - eexists. split; [done|]. destruct written; by repeat constructor.
  - intros ->. rewrite child_input_app. f_equal. simpl.
    rewrite decide_True by done. rewrite !first_bytes_all. apply append_empty_r.
  - by intros ->.
  - unfold terminated. destruct c; [done|]. intros _ ->. by rewrite Ascii.eqb_refl.
  - unfold terminated. destruct c; [done|]. intros _ Hb.
    by apply Ascii.eqb_neq in Hb as ->.
Qed.

Lemma SendCommand_writes_terminated_command_witness :
  child_input (m_stdinWrite (this live))
    (os_log (os (SendCommand (Some 3%N) "go" live).2)) =
  child_input (m_stdinWrite (this live)) (os_log (os live))
    +:+ terminated "go".
Proof.
  assert (m_isRunning (this live) = true) as Hrun
    by (vm_compute; reflexivity).
  assert (m_stdinWrite (this live) ≠ nullptr) as Hin
    by (vm_compute; discriminate).
  assert (N.of_nat (String.length "go") < DWORD_MAX - 1)%N as Hlen
    by (vm_compute; reflexivity).
  destruct (SendCommand_writes_terminated_command (Some 3%N) "go" live
              Hrun Hin Hlen) as (_ & Hinput & _).
  apply Hinput. vm_compute; reflexivity.
Defined.

(** C1, as the specification words it, fails on the empty command: no
    byte is written, so what the child receives does not end in a line
    terminator. *)
Lemma SendCommand_empty_command_has_no_terminator :
  let σ' := (SendCommand (Some 0%N) "" live).2 in
  emitted live σ' =
    [EvWriteFile (m_stdinWrite (this live)) "" 0%N (Some 0%N);
     EvFlushFileBuffers (m_stdinWrite (this live))] ∧
  child_input (m_stdinWrite (this live)) (emitted live σ') = "" ∧
  ¬ ∃ body, child_input (m_stdinWrite (this live)) (emitted live σ')
            = body +:+ String LF "".
Proof.
  split_and!; [by vm_compute..|].
  intros [body Hbody]. vm_compute in Hbody. by destruct body.
Qed.

(** C3.  SendCommand on a running session fails, with the message
    "Failed to write to engine stdin", exactly when WriteFile returns
    FALSE; whenever WriteFile returns TRUE it succeeds, whatever number of
    bytes was accepted. *)
Theorem SendCommand_fails_only_on_write_error written c σ :
  m_isRunning (this σ) = true →
  m_stdinWrite (this σ) ≠ nullptr →
  let p := (SendCommand written c σ).1 in
  (written = None ↔ p = Reject "Failed to write to engine stdin") ∧
  (∀ accepted, written = Some accepted → p = Resolve true).
Proof.
  destruct σ as [[l hp hin hout herr t r q] [log open next]]. simpl.
  intros -> Hin. rewrite SendCommand_spec by done. simpl.
  split; [by destruct written|by intros k ->].
Qed.

Lemma SendCommand_fails_only_on_write_error_witness :
  (SendCommand (Some 1%N) "go" live).1 = Resolve true.
Proof.
  assert (m_isRunning (this live) = true) as Hrun
    by (vm_compute; reflexivity).
  assert (m_stdinWrite (this live) ≠ nullptr) as Hin
    by (vm_compute; discriminate).
  destruct (SendCommand_fails_only_on_write_error (Some 1%N) "go" live
              Hrun Hin) as (_ & Hok).
  exact (Hok 1%N eq_refl).
Defined.

(** C3, as the specification words it, fails on a short write: WriteFile
    accepts one byte of the three offered and the call still succeeds. *)
Lemma SendCommand_short_write_resolves :
  let '(p, σ') := SendCommand (Some 1%N) "go" live in
  emitted live σ' =
    [EvWriteFile (m_stdinWrite (this live))
       (String "g" (String "o" (String LF ""))) 3%N (Some 1%N);
     EvFlushFileBuffers (m_stdinWrite (this live))] ∧
  (1 < 3)%N ∧
  p = Resolve true ∧ p ≠ Reject "Failed to write to engine stdin".
Proof. by vm_compute. Qed.

(** C8.  SendCommand with no active session fails with "Engine is not
    running"; it makes no call to the operating system and changes
    nothing. *)
Theorem SendCommand_not_running c written σ :
  m_isRunning (this σ) = false ∨ m_stdinWrite (this σ) = nullptr →
  SendCommand written c σ = (Reject "Engine is not running", σ) ∧
  emitted σ (SendCommand written c σ).2 = [].
Proof.
  intros H. rewrite SendCommand_idle by done. split; [done|].
  unfold emitted. simpl. by rewrite drop_all.
Qed.

Lemma SendCommand_not_running_witness :
  SendCommand (Some 3%N) "go" idle = (Reject "Engine is not running", idle) ∧
  emitted idle (SendCommand (Some 3%N) "go" idle).2 = [].
Proof.
  exact (SendCommand_not_running "go" (Some 3%N) idle (or_introl eq_refl)).
Defined.

(** ** ReadOutput *)

Lemma drain_spec q ss : drain q ss = ([], ss +:+ concat_chunks q).
Proof.
  revert ss. induction q as [|front q IH]; intros ss; simpl.
  - by rewrite append_empty_r.
  - by rewrite IH, append_assoc.
Qed.

Lemma enqueue_all_spec chunks l hp hin hout herr t r q w :
  enqueue_all chunks (mkSys (mkEngineModule l hp hin hout herr t r q) w) =
  (tt, mkSys (mkEngineModule l hp hin hout herr t r (q ++ chunks)) w).
Proof.
  revert q. induction chunks as [|c chunks IH]; intros q; simpl.
  - by rewrite app_nil_r.
  - run. fold (enqueue_all chunks). rewrite IH. by rewrite <- app_assoc.
Qed.

Lemma ReadOutput_spec l hp hin hout herr t r q w :
  ReadOutput (mkSys (mkEngineModule l hp hin hout herr t r q) w) =
  (Resolve (concat_chunks q),
   mkSys (mkEngineModule l hp hin hout herr t r []) w).
Proof.
  unfold ReadOutput. run. destruct q as [|front q]; [done|].
  rewrite drain_spec. by run.
Qed.

(** C4.  Whatever the state of the engine, ReadOutput resolves; after the
    reader enqueued chunks in arrival order it returns what was queued
    followed by these chunks, concatenated in that order, and leaves the
    queue empty, so that a further call returns the empty text. *)
Theorem ReadOutput_returns_chunks_in_order σ chunks :
  let '(p, σ') := ReadOutput (enqueue_all chunks σ).2 in
  p = Resolve (concat_chunks (m_outputQueue (this σ) ++ chunks)) ∧
  m_outputQueue (this σ') = [] ∧
  emitted σ σ' = [] ∧
  ReadOutput σ' = (Resolve "", σ') ∧
  (∃ text, (ReadOutput σ).1 = Resolve text).
Proof.
  destruct σ as [[l hp hin hout herr t r q] w].
  rewrite enqueue_all_spec. cbn [snd]. rewrite !ReadOutput_spec. simpl.
  split_and!; eauto. unfold emitted. simpl. by rewrite drop_all.
Qed.

(** ** The reader thread *)

Lemma reader_turn_spec e l hp hin hout herr t r q log open next :
  ∃ t' r' q' calls,
    reader_turn e
      (mkSys (mkEngineModule l hp hin hout herr t r q) (mkWorld log open next)) =
    (tt, mkSys (mkEngineModule l hp hin hout herr t' r' q')
           (mkWorld (log ++ calls) open next))
    ∧ ((t' = t ∧ r' = r ∧ (t ≠ Polling → q' = q ∧ calls = []))
       ∨ (t = Polling ∧ t' = Returned ∧ r' = false ∧
          (r = true → exit_observed e)))
    ∧ (t = Polling → r = true → exit_observed e →
       t' = Returned ∧ r' = false).
Proof.
  unfold reader_turn. destruct t; run.
  1: exists NotAThread, r, q, []. 3: exists Returned, r, q, [].
  1,3: rewrite app_nil_r; split; [done|]; split; [left|]; done.
  destruct r; run.
  - destruct (reader_body_spec e l hp hin hout herr Polling true q log open next)
      as (b & r' & calls & -> & _ & _ & [(-> & -> & Hn)|(-> & -> & Hx)]); run.
    + eexists _, _, _, _. split; [done|]. split; [left|]; done.
    + eexists _, _, _, _. split; [done|]. split; [right|]; done.
  - eexists _, _, _, []. rewrite app_nil_r. split; [done|].
    split; [right|]; done.
Qed.



(** ** StopEngine *)



(** ** What clears the running flag *)

Lemma ReadOutput_this_running σ :
  m_isRunning (this (ReadOutput σ).2) = m_isRunning (this σ).
Proof. destruct σ as [[l hp hin hout herr t r q] w]. by rewrite ReadOutput_spec. Qed.

(** C7.  A step that finds the running flag set and leaves it cleared is
    StopEngine, a SpawnEngine that got as far as its restart, or a trip of
    the reader in which the process was seen to have exited and after which
    the reader has left its loop; and a trip of a polling reader of a running
    session that sees the exit does clear the flag and leave the loop. *)
Theorem running_cleared_only_by_stop_or_exit op e σ σ' :
  (step op σ = Some σ' →
   m_isRunning (this σ) = true → m_isRunning (this σ') = false →
   match op with
   | CallStopEngine _ => True
   | CallSpawnEngine e enginePath => reaches_restart e enginePath
   | ReaderTrip e =>
       exit_observed e ∧ m_outputThread (this σ) = Polling ∧
       m_outputThread (this σ') = Returned
   | _ => False
   end) ∧
  (m_outputThread (this σ) = Polling → m_isRunning (this σ) = true →
   exit_observed e →
   m_isRunning (this (reader_turn e σ).2) = false ∧
   m_outputThread (this (reader_turn e σ).2) = Returned).
Proof.
  split.
  - destruct op as [e' path|written c| |i| |e']; simpl; try done.
    + destruct σ as [[l hp hin hout herr t r q] [log open next]].
      destruct (SpawnEngine_spec e' path l hp hin hout herr t r q log open next)
        as (p & m' & calls & open' & next' & -> & [(_ & -> & _)|(Hr & _)]).
      * destruct p; simpl; intros; simplify_eq/=.
      * done.
    + pose proof (SendCommand_this written c σ) as Hthis.
      destruct (SendCommand written c σ) as [p σ1]. simpl in Hthis.
      destruct p; simpl; intros; simplify_eq/=; congruence.
    + pose proof (ReadOutput_this_running σ) as Hthis.
      destruct (ReadOutput σ) as [p σ1]. simpl in Hthis.
      destruct p; simpl; intros; simplify_eq/=; congruence.
    + unfold IsEngineRunning. run. simpl. intros; simplify_eq/=; congruence.
    + destruct σ as [[l hp hin hout herr t r q] [log open next]].
      destruct (reader_turn_spec e' l hp hin hout herr t r q log open next)
        as (t' & r' & q' & calls & -> & [(-> & -> & _)|(-> & -> & -> & Hx)] & _);
        simpl; intros; simplify_eq/=. auto.
  - destruct σ as [[l hp hin hout herr t r q] [log open next]]. simpl.
    intros -> -> Hx.
    destruct (reader_turn_spec e l hp hin hout herr Polling true q log open next)
      as (t' & r' & q' & calls & -> & _ & H).
    simpl. destruct H as [-> ->]; done.
Qed.

Lemma running_cleared_only_by_stop_or_exit_witness :
  m_isRunning (this (reader_turn exit_poll live).2) = false ∧
  m_outputThread (this (reader_turn exit_poll live).2) = Returned.
Proof.
  assert (m_outputThread (this live) = Polling) as Ht
    by (vm_compute; reflexivity).
  assert (m_isRunning (this live) = true) as Hr
    by (vm_compute; reflexivity).
  assert (exit_observed exit_poll) as Hx
    by (exists 0%N; split; [reflexivity|discriminate]).
  destruct (running_cleared_only_by_stop_or_exit CallReadOutput exit_poll
              live live) as (_ & H).
  exact (H Ht Hr Hx).
Defined.

(** ** The restart inside SpawnEngine *)

Lemma launched_is_create ev : is_Some (launched ev) ↔ is_CreateProcessW ev = true.
Proof. destruct ev; simpl; split; (done || by intros [? ?] || eauto). Qed.

Lemma launched_none calls :
  omap launched calls = [] → Forall (λ ev, is_CreateProcessW ev = false) calls.
Proof.
  induction calls as [|ev calls IH]; [done|].
  destruct ev; simpl; try done; intros H; constructor; auto.
Qed.

(** A log whose first part creates no process splits at its first process
    creation after that part. *)
Lemma split_at_create (X post before after : list OsCall) ev :
  X ++ post = before ++ ev :: after →
  Forall (λ ev, is_CreateProcessW ev = false) X →
  is_CreateProcessW ev = true →
  ∃ k, before = X ++ k ∧ post = k ++ ev :: after.
Proof.
  intros Heq HX Hev. revert before Heq.
  induction HX as [|x X Hx _ IH]; intros before Heq; simpl in *.
  - by exists before.
  - destruct before as [|b before]; simplify_eq/=; [congruence|].
    destruct (IH before) as (k & -> & ->); [done|]. by exists k.
Qed.

Lemma resolving_no_create e path :
  Forall (λ ev, is_CreateProcessW ev = false) (resolving e path).
Proof. unfold resolving. by repeat constructor. Qed.

(** C5.  When SpawnEngine is called on a running session and creates a
    process, then before that creation the reader thread has been joined,
    the old process has been terminated and its handle and the three pipe
    handles have been closed; the call creates no other process. *)
Theorem SpawnEngine_stops_old_session_first e path σ before ev after :
  running_session (this σ) →
  emitted σ (SpawnEngine e path σ).2 = before ++ ev :: after →
  is_CreateProcessW ev = true →
  EvThreadJoin ∈ before ∧
  EvTerminateProcess (m_processHandle (this σ)) ∈ before ∧
  EvCloseHandle (m_processHandle (this σ)) ∈ before ∧
  EvCloseHandle (m_stdinWrite (this σ)) ∈ before ∧
  EvCloseHandle (m_stdoutRead (this σ)) ∈ before ∧
  EvCloseHandle (m_stderrRead (this σ)) ∈ before ∧
  Forall (λ ev, is_CreateProcessW ev = false) (before ++ after).
Proof.
  destruct σ as [[l hp hin hout herr t r q] [log open next]].
  intros (Hr & Ht & Hp & Hi & Ho & He). simpl in *. subst r t.
  destruct (SpawnEngine_spec e path l hp hin hout herr Polling true q log open next)
    as (p & m' & calls & open' & next' & -> & Hcase).
  cbn [snd]. rewrite emitted_app. intros -> Hev.
  destruct Hcase as [(_ & _ & _ & Hl & _)|(_ & (mid & post & Hcalls & Hmid & Hpost & Hstop) & _)].
  { rewrite omap_app in Hl. simpl in Hl.
    apply launched_is_create in Hev as [? Hev]. rewrite Hev in Hl.
    by destruct (omap launched before). }
  destruct (Hstop eq_refl) as (Hj & Hpr & Hin & Hout & Herr).
  rewrite app_assoc in Hcalls. symmetry in Hcalls.
  apply split_at_create in Hcalls as (k & -> & ->); [|
    apply Forall_app; split; [apply resolving_no_create|done] | done].
  assert (omap launched k = [] ∧ omap launched after = []) as [Hk Ha].
  { rewrite omap_app in Hpost.
    apply launched_is_create in Hev as [x Hev].
    change (omap launched (ev :: after))
      with (match launched ev with
            | Some y => y :: omap launched after
            | None => omap launched after
            end) in Hpost.
    rewrite Hev in Hpost.
    assert (length (omap launched k) + S (length (omap launched after)) ≤ 1).
    { destruct Hpost as [H|H]; apply (f_equal length) in H;
        rewrite length_app in H; cbn [length] in H; lia. }
    destruct (omap launched k), (omap launched after); cbn [length] in *;
      (done || lia). }
  specialize (Hj eq_refl). destruct (Hpr Hp) as [Hterm Hclose].
  specialize (Hin Hi). specialize (Hout Ho). specialize (Herr He).
  split_and!; [rewrite !elem_of_app; auto..|].
  rewrite !Forall_app. split_and!;
    [apply resolving_no_create | done | by apply launched_none..].
Qed.

(** A second launch, of another engine, on the live session. *)
Lemma SpawnEngine_stops_old_session_first_witness :
  EvThreadJoin ∈
    take 19 (emitted live (SpawnEngine sample_launch (L "other.exe") live).2).
Proof.
  assert (running_session (this live)) as Hlive.
  { repeat split; vm_compute; (reflexivity || discriminate). }
  assert (∃ ev after,
    emitted live (SpawnEngine sample_launch (L "other.exe") live).2 =
    take 19 (emitted live (SpawnEngine sample_launch (L "other.exe") live).2)
      ++ ev :: after ∧ is_CreateProcessW ev = true) as (ev & after & Hsplit & Hev).
  { eexists _, _. split; vm_compute; reflexivity. }
  exact (proj1 (SpawnEngine_stops_old_session_first sample_launch
                  (L "other.exe") live _ ev after Hlive Hsplit Hev)).
Defined.

(** ** The engine path *)

(** C10.  SpawnEngine uses of its path argument only the part after the
    last slash or backslash: two paths with the same final component give
    the same result, the same state and the same calls.  The file probed
    is that component under the package's Assets\engines directory, the
    copy goes from there to that component under the ChessAppEngine
    directory of the temporary path, and a process is created from no
    other file than this copy. *)
Theorem SpawnEngine_depends_on_filename_only e p1 p2 σ :
  filename_of p1 = filename_of p2 →
  let packageEnginePath :=
    packagePath e ++ L "\Assets\engines\" ++ filename_of p2 in
  let tempEnginePath := tempPath e ++ L "ChessAppEngine\" ++ filename_of p2 in
  let calls := emitted σ (SpawnEngine e p1 σ).2 in
  SpawnEngine e p1 σ = SpawnEngine e p2 σ ∧
  EvGetFileAttributesW packageEnginePath ∈ calls ∧
  (reaches_restart e p1 → EvCopyFileW packageEnginePath tempEnginePath ∈ calls) ∧
  (∀ launch_path, launch_path ∈ omap launched calls →
                  launch_path = tempEnginePath).
Proof.
  intros Hname. cbn zeta. split.
  { unfold SpawnEngine. by rewrite Hname. }
  rewrite <- Hname.
  destruct σ as [[l hp hin hout herr t r q] [log open next]].
  destruct (SpawnEngine_spec e p1 l hp hin hout herr t r q log open next)
    as (p & m' & calls & open' & next' & -> & Hcase).
  cbn [snd]. rewrite emitted_app.
  destruct Hcase as [(Hn & _ & _ & Hl & _ & _ & Hprobe)
                    |(Hr & (mid & post & -> & Hmid & Hpost & _) & _)].
  - split_and!; [done|done|]. rewrite Hl. by intros ? ?%elem_of_nil.
  - split_and!.
    + unfold resolving. set_solver.
    + intros _. unfold resolving. set_solver.
    + intros launch_path. rewrite !omap_app.
      rewrite (not_create_launched (resolving e p1))
        by apply resolving_no_create.
      rewrite (not_create_launched mid) by done. cbn [app].
      destruct Hpost as [-> | ->]; set_solver.
Qed.

Lemma SpawnEngine_depends_on_filename_only_witness :
  SpawnEngine sample_launch (L "..\elsewhere/engine.exe") idle =
  SpawnEngine sample_launch (L "engine.exe") idle.
Proof.
  assert (filename_of (L "..\elsewhere/engine.exe") =
          filename_of (L "engine.exe")) as Hname
    by (vm_compute; reflexivity).
  exact (proj1 (SpawnEngine_depends_on_filename_only sample_launch
                  (L "..\elsewhere/engine.exe") (L "engine.exe") idle Hname)).
Defined.

(** ** A failed pipe creation *)

(** C2 on the code.  SpawnEngine on a fresh module, with the first
    CreatePipe succeeding and the second failing: the call is rejected and
    both handles of the first pipe are closed, yet [m_stdinWrite] keeps
    the value of the closed handle, so the module is not in the null
    configuration, and a later StopEngine closes that handle once more. *)
Lemma SpawnEngine_pipe_failure_keeps_closed_handle :
  let '(p, σ') := SpawnEngine stdout_pipe_fails (L "engine.exe") idle in
  p = Reject "Failed to spawn engine process. Error code: 5" ∧
  m_isRunning (this σ') = false ∧
  omap (λ ev, match ev with EvCloseHandle h => Some h | _ => None end)
    (emitted idle σ') = [1%N; 2%N] ∧
  open_handles (os σ') = ∅ ∧
  m_stdinWrite (this σ') = 2%N ∧
  ¬ null_configuration (this σ') ∧
  emitted σ' (StopEngine None σ').2 = [EvCloseHandle 2%N].
Proof.
  vm_compute. split_and!; try reflexivity.
  intros (_ & ? & _). discriminate.
Qed.

(** * Further properties *)

(** ** The file name of a path *)

(** X1.  The file name taken from a path holds neither a backslash nor a
    slash. *)
Theorem filename_of_has_no_separator path :
  Forall (λ c, c ≠ 92%N ∧ c ≠ 47%N) (filename_of path).
Proof.
  eapply Forall_impl; [apply filename_of_no_separator|].
  intros c Hc. cbn beta in Hc.
  split; intros ->; apply Hc; vm_compute; set_solver.
Qed.

(** X2.  A path is its directory part followed by its file name; the
    directory part is empty or ends in a separator; a path without
    separator is its own file name, and taking the file name twice is
    taking it once. *)
Theorem filename_of_splits_path path :
  (∃ dir, path = dir ++ filename_of path ∧
          (dir = [] ∨ ∃ d c, dir = d ++ [c] ∧ c ∈ separators)) ∧
  (Forall (λ c, c ∉ separators) path → filename_of path = path) ∧
  filename_of (filename_of path) = filename_of path.
Proof.
  assert (∀ p, Forall (λ c, c ∉ separators) p → filename_of p = p) as Hplain.
  { intros p Hp. unfold filename_of, find_last_of.
    by rewrite find_last_of_from_absent. }
  split_and!; [|apply Hplain|apply Hplain, filename_of_no_separator].
  unfold filename_of, substr.
  pose proof (find_last_of_split separators path) as H.
  destruct (find_last_of path separators) as [i|].
  - destruct H as (c & rest & Hpath & Hi & Hc & _ & ->).
    exists (take i path ++ [c]). split.
    + by rewrite <- app_assoc.
    + right. eauto.
  - exists []. split; [done|by left].
Qed.

Lemma filename_of_splits_path_witness :
  filename_of (L "engine.exe") = L "engine.exe".
Proof.
  assert (Forall (λ c, c ∉ separators) (L "engine.exe")) as Hplain.
  { apply Forall_forall. intros c Hc Hsep.
    vm_compute in Hc, Hsep. set_solver. }
  exact (proj1 (proj2 (filename_of_splits_path (L "engine.exe"))) Hplain).
Defined.

(** ** CopyEngineToAppData *)

Lemma filename_of_in_engine_dir tmp name :
  filename_of (tmp ++ L "ChessAppEngine\" ++ filename_of name) =
  filename_of name.
Proof.
  change (L "ChessAppEngine\") with (L "ChessAppEngine" ++ [92%N]).
  rewrite <- app_assoc, app_assoc. cbn [app].
  apply filename_of_idem. unfold separators. vm_compute. set_solver.
Qed.

(** X3.  CopyEngineToAppData touches neither the module nor any handle.
    It returns the empty path exactly when the temporary path is empty or
    the copy fails; otherwise it returns the path of the copy, which is
    the file name of the source under the ChessAppEngine directory of the
    temporary path, and it has created that directory before copying.
    With an empty temporary path no copy is attempted. *)
Theorem CopyEngineToAppData_result e sourcePath σ :
  let '(destPath, σ') := CopyEngineToAppData e sourcePath σ in
  let engineDir := tempPath e ++ L "ChessAppEngine\" in
  let target := engineDir ++ filename_of sourcePath in
  this σ' = this σ ∧
  open_handles (os σ') = open_handles (os σ) ∧
  (destPath = [] ↔
   tempPath e = [] ∨ copy_succeeds e sourcePath target = false) ∧
  (destPath ≠ [] →
   destPath = target ∧
   filename_of destPath = filename_of sourcePath ∧
   emitted σ σ' =
     [EvGetTempPathW; EvCreateDirectoryW engineDir;
      EvCopyFileW sourcePath target;
      EvOutputDebugStringW (L "Copied engine to: " ++ target)]) ∧
  (tempPath e = [] →
   emitted σ σ' =
     [EvGetTempPathW; EvOutputDebugStringW (L "Failed to get temp path")]).
Proof.
  destruct σ as [m [log open next]]. unfold CopyEngineToAppData. run.
  destruct (Nat.eqb_spec (length (tempPath e)) 0) as [Htmp|Htmp]; run.
  { assert (tempPath e = []) as Hnil by (by destruct (tempPath e)).
    rewrite <- ?app_assoc. rewrite emitted_app. split_and!; try done.
    split; auto. }
  assert (tempPath e ≠ []) as Hne by (by destruct (tempPath e)).
  destruct (copy_succeeds e sourcePath _) eqn:Hcopy; run;
    rewrite <- ?app_assoc; rewrite emitted_app; cbn [app].
  - split_and!; try done.
    + split; [|intros [?|?]; done].
      intros H. apply (f_equal length) in H. rewrite !length_app in H.
      destruct (tempPath e); simpl in *; [done|lia].
    + intros _. split_and!; try done.
      rewrite <- ?app_assoc. apply filename_of_in_engine_dir.
  - split_and!; try done. split; auto.
Qed.

Lemma CopyEngineToAppData_result_witness :
  (CopyEngineToAppData sample_launch (L "C:\pkg\Assets\engines\engine.exe")
     idle).1
  = L "C:\tmp\" ++ L "ChessAppEngine\" ++ L "engine.exe".
Proof.
  pose proof (CopyEngineToAppData_result sample_launch
                (L "C:\pkg\Assets\engines\engine.exe") idle) as H.
  assert ((CopyEngineToAppData sample_launch
             (L "C:\pkg\Assets\engines\engine.exe") idle).1 ≠ []) as Hne
    by (vm_compute; discriminate).
  destruct (CopyEngineToAppData sample_launch
              (L "C:\pkg\Assets\engines\engine.exe") idle) as [dst σ'].
  cbn zeta in H. destruct H as (_ & _ & _ & H & _).
  destruct (H Hne) as (-> & _). vm_compute. reflexivity.
Defined.

(** ** SpawnEngine when the engine cannot be provided *)

(** X4.  When the engine file is not found in the package, or cannot be
    copied, SpawnEngine rejects with the message of that failure and
    leaves the module as it was (a running session keeps running); it
    creates no pipe and no process, and closes nothing. *)
Theorem SpawnEngine_lookup_failure e path σ :
  ¬ reaches_restart e path →
  let packageEnginePath :=
    packagePath e ++ L "\Assets\engines\" ++ filename_of path in
  let '(p, σ') := SpawnEngine e path σ in
  this σ' = this σ ∧
  open_handles (os σ') = open_handles (os σ) ∧
  Forall (λ ev, match ev with
                | EvCreatePipe _ | EvCreateProcessW _ _ _ _ _
                | EvCloseHandle _ | EvTerminateProcess _ | EvThreadJoin => False
                | _ => True
                end) (emitted σ σ') ∧
  (file_exists e packageEnginePath = false →
   p = Reject ("Engine not found in package. Error code: "
               +:+ dec (error_attributes e)) ∧
   emitted σ σ' =
     [EvOutputDebugStringW (L "Looking for engine at: " ++ packageEnginePath);
      EvGetFileAttributesW packageEnginePath]) ∧
  (file_exists e packageEnginePath = true →
   p = Reject "Failed to copy engine to temp folder").
Proof.
  intros Hnot. cbn zeta.
  destruct σ as [m [log open next]].
  unfold SpawnEngine, CopyEngineToAppData. rewrite filename_of_package.
  set (pkgPath := packagePath e ++ L "\Assets\engines\" ++ filename_of path).
  rewrite <- (app_assoc (tempPath e)).
  set (dest := tempPath e ++ L "ChessAppEngine\" ++ filename_of path).
  run.
  destruct (file_exists e pkgPath) eqn:Hfound; run.
  2:{ rewrite <- ?app_assoc. rewrite emitted_app.
      split_and!; try done. by repeat constructor. }
  destruct (Nat.eqb_spec (length (tempPath e)) 0) as [Htmp|Htmp]; run.
  { unfold wempty. run. rewrite <- ?app_assoc. rewrite emitted_app.
    split_and!; try done. by repeat constructor. }
  destruct (copy_succeeds e pkgPath dest) eqn:Hcopy; run.
  { destruct Hnot. split_and!; [done| |done]. by destruct (tempPath e). }
  unfold wempty. run. rewrite <- ?app_assoc; rewrite emitted_app.
  split_and!; try done. by repeat constructor.
Qed.

Lemma SpawnEngine_lookup_failure_witness :
  this (SpawnEngine engine_missing (L "engine.exe") live).2 = this live.
Proof.
  assert (¬ reaches_restart engine_missing (L "engine.exe")) as Hnot.
  { intros (Hfound & _). vm_compute in Hfound. discriminate. }
  pose proof (SpawnEngine_lookup_failure engine_missing (L "engine.exe") live
                Hnot) as H.
  cbn zeta in H.
  destruct (SpawnEngine engine_missing (L "engine.exe") live) as [p σ'].
  exact (proj1 H).
Defined.

(** ** A successful launch *)

Lemma no_session_eq m : no_session m → m = fresh_module (OnEngineOutput m).
Proof.
  destruct m. intros ((? & ? & ? & ?) & ? & ? & ?). simplify_eq/=. done.
Qed.

Lemma launch_succeeds_dest e path :
  launch_succeeds e path →
  let pkgPath := packagePath e ++ L "\Assets\engines\" ++ filename_of path in
  let dest := tempPath e ++ L "ChessAppEngine\" ++ filename_of path in
  file_exists e pkgPath = true ∧ (length (tempPath e) =? 0) = false ∧
  copy_succeeds e pkgPath dest = true ∧ wempty dest = false ∧
  process_starts e dest = true.
Proof.
  intros ((Hf & Ht & Hc) & _ & _ & _ & Hp). cbn zeta.
  split_and!; try done; by destruct (tempPath e).
Qed.

(** X5.  A launch that succeeds on a module without session wires the
    pipes as follows: the child's standard input is the read end of the
    pipe whose write end the module keeps in [m_stdinWrite], its standard
    output and error are the write ends of the pipes whose read ends the
    module keeps in [m_stdoutRead] and [m_stderrRead]; the process is
    created from the copy; the three ends given to the child and the
    thread handle of the new process are closed in the parent; and the
    module holds a running session. *)
Theorem SpawnEngine_success_wires_pipes e path σ :
  no_session (this σ) →
  launch_succeeds e path →
  let '(p, σ') := SpawnEngine e path σ in
  let m' := this σ' in
  p = Resolve true ∧ running_session m' ∧
  ∃ stdinRead stdoutWrite stderrWrite hThread,
    omap (λ ev, match ev with EvCreatePipe r => r | _ => None end)
      (emitted σ σ') =
      [(stdinRead, m_stdinWrite m'); (m_stdoutRead m', stdoutWrite);
       (m_stderrRead m', stderrWrite)] ∧
    filter (λ ev, is_CreateProcessW ev = true) (emitted σ σ') =
      [EvCreateProcessW
         (tempPath e ++ L "ChessAppEngine\" ++ filename_of path)
         stdinRead stdoutWrite stderrWrite
         (Some (m_processHandle m', hThread))] ∧
    omap closed (emitted σ σ') =
      [stdinRead; stdoutWrite; stderrWrite; hThread] ∧
    omap (λ ev, match ev with EvSetHandleInformation h => Some h | _ => None end)
      (emitted σ σ') =
      [m_stdinWrite m'; m_stdoutRead m'; m_stderrRead m'].
Proof.
  intros Hnone Hok. destruct σ as [m [log open next]].
  cbn [this] in Hnone. rewrite (no_session_eq m Hnone).
  generalize (OnEngineOutput m). intros l. clear m Hnone.
  destruct (launch_succeeds_dest e path Hok) as (Hf & Ht & Hc & He & Hp).
  destruct Hok as (_ & Hp1 & Hp2 & Hp3 & _).
  unfold SpawnEngine, CopyEngineToAppData, CreateEngineProcess, fresh_module.
  rewrite filename_of_package. rewrite <- (app_assoc (tempPath e)).
  rewrite Hp1, Hp2, Hp3.
  set (pkgPath := packagePath e ++ L "\Assets\engines\" ++ filename_of path) in *.
  set (dest := tempPath e ++ L "ChessAppEngine\" ++ filename_of path) in *.
  run. rewrite Hf. run. rewrite Ht. run. rewrite Hc. run. rewrite He.
  run. rewrite Hp. run.
  rewrite <- ?app_assoc. rewrite emitted_app. cbn [app].
  split_and!; [done|by repeat split|].
  eexists _, _, _, _. split_and!; reflexivity.
Qed.

Lemma SpawnEngine_success_wires_pipes_witness :
  (SpawnEngine sample_launch (L "engine.exe") idle).1 = Resolve true.
Proof.
  assert (no_session (this idle)) as Hidle by (by repeat split).
  assert (launch_succeeds sample_launch (L "engine.exe")) as Hok.
  { repeat split; vm_compute; (reflexivity || discriminate). }
  pose proof (SpawnEngine_success_wires_pipes sample_launch (L "engine.exe")
                idle Hidle Hok) as H.
  destruct (SpawnEngine sample_launch (L "engine.exe") idle) as [p σ'].
  exact (proj1 H).
Defined.

(** ** Handles opened and closed *)

Ltac run_null := cbv beta iota zeta delta [is_null nullptr N.eqb].

Lemma fresh_not_open w q :
  world_ok w → (next_handle w ≤ q)%positive → Npos q ∉ open_handles w.
Proof. intros Hw Hq Hin. apply Hw in Hin. lia. Qed.

(** X6.  On a module without session, a launch that succeeds leaves open
    exactly four handles more than before, the four the module keeps; a
    StopEngine after it closes them again: module and open handles are as
    they were before the launch. *)
Theorem SpawnEngine_then_StopEngine_restores e path inflight σ :
  no_session (this σ) →
  world_ok (os σ) →
  launch_succeeds e path →
  let σ1 := (SpawnEngine e path σ).2 in
  let σ2 := (StopEngine inflight σ1).2 in
  open_handles (os σ1) =
    {[ m_processHandle (this σ1); m_stdinWrite (this σ1);
       m_stdoutRead (this σ1); m_stderrRead (this σ1) ]}
    ∪ open_handles (os σ) ∧
  this σ2 = this σ ∧
  open_handles (os σ2) = open_handles (os σ).
Proof.
  intros Hnone Hw Hok. destruct σ as [m [log open next]].
  cbn [this] in Hnone. cbn [os] in Hw. rewrite (no_session_eq m Hnone).
  generalize (OnEngineOutput m). intros l. clear m Hnone.
  destruct (launch_succeeds_dest e path Hok) as (Hf & Ht & Hc & He & Hp).
  destruct Hok as (_ & Hp1 & Hp2 & Hp3 & _).
  assert (∀ q, (next ≤ q)%positive → Npos q ∉ open) as Hfresh.
  { intros q Hq. by apply (fresh_not_open (mkWorld log open next)). }
  pose proof (Hfresh next ltac:(lia)) as H0.
  pose proof (Hfresh (next + 1)%positive ltac:(lia)) as H1.
  pose proof (Hfresh (next + 2)%positive ltac:(lia)) as H2.
  pose proof (Hfresh (next + 3)%positive ltac:(lia)) as H3.
  pose proof (Hfresh (next + 4)%positive ltac:(lia)) as H4.
  pose proof (Hfresh (next + 5)%positive ltac:(lia)) as H5.
  pose proof (Hfresh (next + 6)%positive ltac:(lia)) as H6.
  pose proof (Hfresh (next + 7)%positive ltac:(lia)) as H7.
  clear Hfresh Hw.
  unfold SpawnEngine, CopyEngineToAppData, CreateEngineProcess, fresh_module.
  rewrite filename_of_package. rewrite <- (app_assoc (tempPath e)).
  rewrite Hp1, Hp2, Hp3.
  set (pkgPath := packagePath e ++ L "\Assets\engines\" ++ filename_of path) in *.
  set (dest := tempPath e ++ L "ChessAppEngine\" ++ filename_of path) in *.
  run. rewrite Hf. run. rewrite Ht. run. rewrite Hc. run. rewrite He.
  run. rewrite Hp. run. cbn zeta.
  split; [|unfold StopEngine; run;
    match goal with
    | |- context [CleanupProcess ?i
                    (mkSys (mkEngineModule ?l ?a ?b ?c ?d ?t ?r ?q)
                       (mkWorld ?lg ?o ?n))] =>
        destruct (thread_join_frame i l a b c d t false q lg o n)
          as (r' & q' & pre & Heq & Hr & _ & _)
    end;
    destruct r'; [by specialize (Hr eq_refl)|];
    unfold CleanupProcess; run; rewrite Heq; run_null; run; split; [done|]].
  all: clearbody pkgPath dest; clear Hf Ht Hc He Hp Hp1 Hp2 Hp3;
       replace (Pos.succ next) with (next + 1)%positive in * by lia;
       replace (Pos.succ (next + 1)) with (next + 2)%positive in * by lia;
       replace (Pos.succ (next + 2)) with (next + 3)%positive in * by lia;
       replace (Pos.succ (next + 3)) with (next + 4)%positive in * by lia;
       replace (Pos.succ (next + 4)) with (next + 5)%positive in * by lia;
       replace (Pos.succ (next + 5)) with (next + 6)%positive in * by lia;
       replace (Pos.succ (next + 6)) with (next + 7)%positive in * by lia;
       apply set_eq; intros x; set_unfold;
       intuition (simplify_eq; try lia; auto).
Qed.

Lemma world_ok_blank : world_ok blank_world.
Proof. intros p Hp. by apply not_elem_of_empty in Hp. Qed.

Lemma SpawnEngine_then_StopEngine_restores_witness :
  open_handles
    (os (StopEngine None (SpawnEngine sample_launch (L "engine.exe") idle).2).2)
  = open_handles (os idle).
Proof.
  assert (no_session (this idle)) as Hidle by (by repeat split).
  assert (launch_succeeds sample_launch (L "engine.exe")) as Hok.
  { repeat split; vm_compute; (reflexivity || discriminate). }
  exact (proj2 (proj2 (SpawnEngine_then_StopEngine_restores sample_launch
                         (L "engine.exe") None idle Hidle world_ok_blank Hok))).
Defined.

(** X7.  On a module without session, a launch that finds and copies the
    engine but then fails, at any of the three pipes or at the process
    creation, is rejected with the spawn-failure message and leaves no
    handle open that was not open before; the module is not running and
    has no reader thread.  When it is the first pipe or the process
    creation that fails, the module is exactly as it was. *)
Theorem failed_launch_leaks_no_handle e path σ :
  no_session (this σ) →
  world_ok (os σ) →
  reaches_restart e path →
  ¬ launch_succeeds e path →
  let '(p, σ') := SpawnEngine e path σ in
  p = Reject ("Failed to spawn engine process. Error code: "
              +:+ dec (error_spawn e)) ∧
  open_handles (os σ') = open_handles (os σ) ∧
  m_isRunning (this σ') = false ∧
  m_outputThread (this σ') = NotAThread ∧
  (pipe_stdin e = false ∨
   (pipe_stdin e = true ∧ pipe_stdout e = true ∧ pipe_stderr e = true) →
   this σ' = this σ).
Proof.
  intros Hnone Hw Hreach Hnot. destruct σ as [m [log open next]].
  cbn [this] in Hnone. cbn [os] in Hw. rewrite (no_session_eq m Hnone).
  generalize (OnEngineOutput m). intros l. clear m Hnone.
  assert (∀ q, (next ≤ q)%positive → Npos q ∉ open) as Hfresh.
  { intros q Hq. by apply (fresh_not_open (mkWorld log open next)). }
  pose proof (Hfresh next ltac:(lia)) as H0.
  pose proof (Hfresh (next + 1)%positive ltac:(lia)) as H1.
  pose proof (Hfresh (next + 2)%positive ltac:(lia)) as H2.
  pose proof (Hfresh (next + 3)%positive ltac:(lia)) as H3.
  pose proof (Hfresh (next + 4)%positive ltac:(lia)) as H4.
  pose proof (Hfresh (next + 5)%positive ltac:(lia)) as H5.
  clear Hfresh Hw.
  assert (file_exists e (packagePath e ++ L "\Assets\engines\" ++ filename_of path) = true
          ∧ (length (tempPath e) =? 0) = false
          ∧ copy_succeeds e (packagePath e ++ L "\Assets\engines\" ++ filename_of path)
              (tempPath e ++ L "ChessAppEngine\" ++ filename_of path) = true
          ∧ wempty (tempPath e ++ L "ChessAppEngine\" ++ filename_of path) = false)
    as (Hf & Ht & Hc & He).
  { destruct Hreach as (? & ? & ?). split_and!; try done; by destruct (tempPath e). }
  assert (pipe_stdin e = true → pipe_stdout e = true → pipe_stderr e = true →
          process_starts e (tempPath e ++ L "ChessAppEngine\" ++ filename_of path)
          = false) as Hp.
  { intros ???. apply not_true_is_false. intros ?. by apply Hnot. }
  clear Hnot Hreach.
  unfold SpawnEngine, CopyEngineToAppData, CreateEngineProcess, fresh_module.
  rewrite filename_of_package. rewrite <- (app_assoc (tempPath e)).
  set (pkgPath := packagePath e ++ L "\Assets\engines\" ++ filename_of path) in *.
  set (dest := tempPath e ++ L "ChessAppEngine\" ++ filename_of path) in *.
  run. rewrite Hf. run. rewrite Ht. run. rewrite Hc. run. rewrite He. run.
  clearbody pkgPath dest. clear Hf Ht Hc He.
  destruct (pipe_stdin e); run; [|by split_and!].
  destruct (pipe_stdout e); run.
  2:{ split_and!; try done; [|by intros [?|(? & ? & ?)]].
      replace (Pos.succ next) with (next + 1)%positive in * by lia.
      apply set_eq; intros x; set_unfold; intuition (simplify_eq; auto). }
  destruct (pipe_stderr e); run.
  2:{ split_and!; try done; [|by intros [?|(? & ? & ?)]].
      replace (Pos.succ next) with (next + 1)%positive in * by lia.
      replace (Pos.succ (next + 1)) with (next + 2)%positive in * by lia.
      replace (Pos.succ (next + 2)) with (next + 3)%positive in * by lia.
      apply set_eq; intros x; set_unfold; intuition (simplify_eq; auto). }
  rewrite Hp by done. run. unfold CleanupProcess. run. run_null. run.
  split_and!; try done.
  replace (Pos.succ next) with (next + 1)%positive in * by lia.
  replace (Pos.succ (next + 1)) with (next + 2)%positive in * by lia.
  replace (Pos.succ (next + 2)) with (next + 3)%positive in * by lia.
  replace (Pos.succ (next + 3)) with (next + 4)%positive in * by lia.
  replace (Pos.succ (next + 4)) with (next + 5)%positive in * by lia.
  apply set_eq; intros x; set_unfold; intuition (simplify_eq; auto).
Qed.

Lemma failed_launch_leaks_no_handle_witness :
  open_handles (os (SpawnEngine stdout_pipe_fails (L "engine.exe") idle).2)
  = open_handles (os idle).
Proof.
  assert (no_session (this idle)) as Hidle by (by repeat split).
  assert (reaches_restart stdout_pipe_fails (L "engine.exe")) as Hreach.
  { repeat split; vm_compute; (reflexivity || discriminate). }
  assert (¬ launch_succeeds stdout_pipe_fails (L "engine.exe")) as Hnot.
  { intros (_ & _ & H & _). vm_compute in H. discriminate. }
  pose proof (failed_launch_leaks_no_handle stdout_pipe_fails (L "engine.exe")
                idle Hidle world_ok_blank Hreach Hnot) as H.
  destruct (SpawnEngine stdout_pipe_fails (L "engine.exe") idle) as [p σ'].
  exact (proj1 (proj2 H)).
Defined.

(** ** How SpawnEngine ends *)

Lemma SpawnEngine_outcome e path l hp hin hout herr t r q log open next :
  let m := mkEngineModule l hp hin hout herr t r q in
  let stale := negb r && joinable t in
  ∃ p m' w',
    SpawnEngine e path (mkSys m (mkWorld log open next)) = (p, mkSys m' w') ∧
    ((launch_succeeds e path ∧ stale = false ∧ p = Resolve true ∧
      running_session m')
     ∨ (launch_succeeds e path ∧ stale = true ∧ p = Aborted)
     ∨ (¬ launch_succeeds e path ∧ reaches_restart e path ∧
        p = Reject ("Failed to spawn engine process. Error code: "
                    +:+ dec (error_spawn e)) ∧
        m_isRunning m' = false ∧
        (m_outputThread m' = NotAThread ∨
         (r = false ∧ m_outputThread m' = t)))
     ∨ (¬ reaches_restart e path ∧ (∃ msg, p = Reject msg) ∧ m' = m)).
Proof.
  intros m stale. unfold SpawnEngine.
  unfold CopyEngineToAppData. rewrite filename_of_package.
  set (pkgPath := packagePath e ++ L "\Assets\engines\" ++ filename_of path).
  rewrite <- (app_assoc (tempPath e)).
  set (dest := tempPath e ++ L "ChessAppEngine\" ++ filename_of path).
  run.
  destruct (file_exists e pkgPath) eqn:Hfound; run.
  2:{ eexists _, _, _. split; [reflexivity|]. do 3 right.
      split_and!; eauto.
      unfold reaches_restart; fold pkgPath; intros (? & _); congruence. }
  destruct (Nat.eqb_spec (length (tempPath e)) 0) as [Htmp|Htmp]; run.
  { unfold wempty. run. eexists _, _, _. split; [reflexivity|]. do 3 right.
    split_and!; eauto.
    unfold reaches_restart; intros (_ & ? & _). by destruct (tempPath e). }
  assert (tempPath e ≠ []) as Htmp' by (by destruct (tempPath e)).
  destruct (copy_succeeds e pkgPath dest) eqn:Hcopy; run.
  2:{ unfold wempty. run.
      eexists _, _, _. split; [reflexivity|]. do 3 right.
      split_and!; eauto.
      unfold reaches_restart; fold pkgPath dest; intros (_ & _ & ?).
      congruence. }
  assert (wempty dest = false) as ->.
  { subst dest. by destruct (tempPath e). }
  assert (reaches_restart e path) as Hreach by done.
  subst m stale.
  destruct r; run.
  1: match goal with
     | |- context [CleanupProcess ?i
                     (mkSys (mkEngineModule ?l ?a ?b ?c ?d ?t ?r ?q)
                        (mkWorld ?lg ?o ?n))] =>
         destruct (CleanupProcess_spec i l a b c d t r q lg o n)
           as (mid & open1 & -> & _)
     end; unfold fresh_module; run.
  all: match goal with
  | |- context [CreateEngineProcess _ _
                  (mkSys (mkEngineModule ?l ?a ?b ?c ?d ?t ?r ?q)
                     (mkWorld ?lg ?o ?n))] =>
      destruct (CreateEngineProcess_spec e dest l a b c d t r q lg o n)
        as (b' & m' & calls & open' & next' & -> & Hcase)
  end.
  all: destruct Hcase as
    [(H1 & -> & _ & ->)
    |[(_ & H2 & -> & _ & wr & -> & _)
    |[(_ & _ & H3 & -> & _ & wr & rd & -> & _)
    |[(_ & _ & _ & H4 & -> & _ & ->)
    |(H1 & H2 & H3 & H4 & -> & _ & pr & wr & rd & rd' & ->)]]]]; run.
  1-4,6-9:
       eexists _, _, _; (split; [reflexivity|]); do 2 right; left;
       (split; [unfold launch_succeeds; fold dest;
                intros (_ & ? & ? & ? & ?); congruence|]);
       split_and!; auto.
  - eexists _, _, _; (split; [reflexivity|]); left. split_and!; try done.
  - destruct t; run;
      eexists _, _, _; (split; [reflexivity|]); [left|right; left..];
      split_and!; try done.
Qed.



Lemma reader_turn_exit e l hp hin hout herr q log open next :
  exit_observed e →
  ∃ q' calls,
    reader_turn e
      (mkSys (mkEngineModule l hp hin hout herr Polling true q)
         (mkWorld log open next)) =
    (tt, mkSys (mkEngineModule l hp hin hout herr Returned false q')
           (mkWorld (log ++ calls) open next)).
Proof.
  intros Hx.
  destruct (reader_turn_spec e l hp hin hout herr Polling true q log open next)
    as (t' & r' & q' & calls & -> & _ & H).
  destruct H as [-> ->]; try done. by eexists _, _.
Qed.

(** X9.  After the reader of a running session has seen the process
    exit, a SpawnEngine whose launch succeeds does not start a session: it
    brings the process down, because the reader thread was never joined.
    With a StopEngine in between, the same SpawnEngine resolves. *)
Theorem SpawnEngine_after_exit e poll path inflight σ :
  running_session (this σ) →
  exit_observed poll →
  launch_succeeds e path →
  let σ1 := (reader_turn poll σ).2 in
  (SpawnEngine e path σ1).1 = Aborted ∧
  (SpawnEngine e path (StopEngine inflight σ1).2).1 = Resolve true.
Proof.
  destruct σ as [[l hp hin hout herr t r q] [log open next]].
  intros (Hr & Ht & _) Hx Hok. simpl in Hr, Ht. subst r t.
  destruct (reader_turn_exit poll l hp hin hout herr q log open next Hx)
    as (q' & calls & Heq).
  cbn zeta. rewrite Heq. cbn [snd]. split.
  - destruct (SpawnEngine_outcome e path l hp hin hout herr Returned false q'
                (log ++ calls) open next) as (p & m' & w' & -> & Hcase).
    cbn [fst].
    destruct Hcase as [(_ & ? & _)|[(_ & _ & ->)|[(? & _)|(Hnot & _)]]];
      try done.
    destruct Hnot. by destruct Hok.
  - unfold StopEngine. run.
    match goal with
    | |- context [CleanupProcess ?i
                    (mkSys (mkEngineModule ?l ?a ?b ?c ?d ?t ?r ?q)
                       (mkWorld ?lg ?o ?n))] =>
        destruct (CleanupProcess_spec i l a b c d t r q lg o n)
          as (calls' & open' & -> & _)
    end.
    cbn [snd]. unfold fresh_module.
    destruct (SpawnEngine_outcome e path l nullptr nullptr nullptr nullptr
                NotAThread false [] ((log ++ calls) ++ calls') open' next)
      as (p & m' & w' & -> & Hcase).
    cbn [fst].
    destruct Hcase as [(_ & _ & -> & _)|[(_ & ? & _)|[(? & _)|(Hnot & _)]]];
      try done.
    destruct Hnot. by destruct Hok.
Qed.

Lemma SpawnEngine_after_exit_witness :
  (SpawnEngine sample_launch (L "engine.exe") exited).1 = Aborted.
Proof.
  assert (running_session (this live)) as Hlive.
  { repeat split; vm_compute; (reflexivity || discriminate). }
  assert (exit_observed exit_poll) as Hx
    by (exists 0%N; split; [reflexivity|discriminate]).
  assert (launch_succeeds sample_launch (L "engine.exe")) as Hok.
  { repeat split; vm_compute; (reflexivity || discriminate). }
  exact (proj1 (SpawnEngine_after_exit sample_launch exit_poll
                  (L "engine.exe") None live Hlive Hx Hok)).
Defined.

(** X10.  A restart that fails after the engine was found and copied
    leaves no engine at all: the old session has been stopped (its reader
    joined, its process terminated) before the new launch was tried, the
    call is rejected, the module is not running and has no reader thread,
    and IsEngineRunning answers false. *)
Theorem failed_restart_leaves_no_engine e path σ :
  running_session (this σ) →
  reaches_restart e path →
  ¬ launch_succeeds e path →
  let '(p, σ') := SpawnEngine e path σ in
  p = Reject ("Failed to spawn engine process. Error code: "
              +:+ dec (error_spawn e)) ∧
  EvThreadJoin ∈ emitted σ σ' ∧
  EvTerminateProcess (m_processHandle (this σ)) ∈ emitted σ σ' ∧
  m_isRunning (this σ') = false ∧
  m_outputThread (this σ') = NotAThread ∧
  (IsEngineRunning σ').1 = Resolve false.
Proof.
  destruct σ as [[l hp hin hout herr t r q] [log open next]].
  intros (Hr & Ht & Hp & _) Hreach Hnot. simpl in Hr, Ht, Hp. subst r t.
  destruct (SpawnEngine_outcome e path l hp hin hout herr Polling true q
              log open next) as (p & m' & w' & Heq & Hcase).
  destruct (SpawnEngine_spec e path l hp hin hout herr Polling true q
              log open next)
    as (p2 & m2 & calls & open' & next' & Heq2 & Hcase2).
  rewrite Heq2 in Heq. simplify_eq. rewrite Heq2. rewrite emitted_app.
  destruct Hcase as [(? & _)|[(? & _)|[(_ & _ & -> & Hrun & Hth)|(? & _)]]];
    try done.
  destruct Hcase2 as [(? & _)|(_ & (mid & post & -> & _ & _ & Hstop) & _)];
    [done|].
  destruct (Hstop eq_refl) as (Hj & Hterm & _).
  specialize (Hj eq_refl). destruct (Hterm Hp) as [Hterm' _].
  destruct Hth as [Hth|[? _]]; [|done].
  split_and!; try done; [rewrite !elem_of_app; auto..|].
  destruct m' as [? ? ? ? ? ? r' ?]. simpl in Hrun. subst r'.
  unfold IsEngineRunning. by run.
Qed.

Lemma failed_restart_leaves_no_engine_witness :
  m_isRunning (this (SpawnEngine process_fails (L "engine.exe") live).2)
  = false.
Proof.
  assert (running_session (this live)) as Hlive.
  { repeat split; vm_compute; (reflexivity || discriminate). }
  assert (reaches_restart process_fails (L "engine.exe")) as Hreach.
  { repeat split; vm_compute; (reflexivity || discriminate). }
  assert (¬ launch_succeeds process_fails (L "engine.exe")) as Hnot.
  { intros (_ & _ & _ & _ & H). vm_compute in H. discriminate. }
  pose proof (failed_restart_leaves_no_engine process_fails (L "engine.exe")
                live Hlive Hreach Hnot) as H.
  destruct (SpawnEngine process_fails (L "engine.exe") live) as [p σ'].
  exact (proj1 (proj2 (proj2 (proj2 H)))).
Defined.

(** ** Invariants of the reachable states *)






(** ** The trips of the reader *)

Lemma length_string_of_list_ascii l :
  String.length (string_of_list_ascii l) = length l.
Proof. induction l as [|c l IH]; simpl; congruence. Qed.

Lemma up_to_NUL_length bytes : length (up_to_NUL bytes) ≤ length bytes.
Proof.
  induction bytes as [|c r IH]; simpl; [done|].
  destruct (is_NUL c); simpl; lia.
Qed.

Lemma up_to_NUL_clean bytes : NUL ∉ up_to_NUL bytes.
Proof.
  induction bytes as [|c r IH]; simpl; [by intros ?%elem_of_nil|].
  unfold is_NUL. destruct (Ascii.eqb_spec c NUL) as [->|Hc].
  - by intros ?%elem_of_nil.
  - intros [?|?]%elem_of_cons; [congruence|done].
Qed.

Lemma chunk_of_bounds bytes :
  String.length (chunk_of bytes) ≤ BUFFER_SIZE - 1 ∧
  NUL ∉ list_ascii_of_string (chunk_of bytes).
Proof.
  unfold chunk_of. split.
  - rewrite length_string_of_list_ascii.
    etrans; [apply up_to_NUL_length|]. rewrite length_take. lia.
  - rewrite list_ascii_of_string_of_list_ascii. apply up_to_NUL_clean.
Qed.

Lemma delivered_bounds e chunk :
  delivered e = Some chunk →
  String.length chunk ≤ BUFFER_SIZE - 1 ∧ NUL ∉ list_ascii_of_string chunk.
Proof.
  unfold delivered. destruct (peek e), (pipe_read e); try done.
  destruct (_ && _); [|done]. intros [= <-]. apply chunk_of_bounds.
Qed.

(** X12.  One trip of the reader adds at most one chunk to the back of
    the queue; the chunk has at most [BUFFER_SIZE - 1] bytes and holds no
    NUL; it is posted to the listener exactly when a listener is bound;
    and the trip changes no handle of the module and opens or closes
    none. *)
Theorem reader_trip_effect e σ :
  let σ' := (reader_body e σ).2 in
  ∃ new,
    m_outputQueue (this σ') = m_outputQueue (this σ) ++ new ∧
    length new ≤ 1 ∧
    Forall (λ chunk, String.length chunk ≤ BUFFER_SIZE - 1 ∧
                     NUL ∉ list_ascii_of_string chunk) new ∧
    omap posted (emitted σ σ') =
      (if OnEngineOutput (this σ) then new else []) ∧
    m_processHandle (this σ') = m_processHandle (this σ) ∧
    m_stdinWrite (this σ') = m_stdinWrite (this σ) ∧
    m_stdoutRead (this σ') = m_stdoutRead (this σ) ∧
    m_stderrRead (this σ') = m_stderrRead (this σ) ∧
    open_handles (os σ') = open_handles (os σ).
Proof.
  destruct σ as [[l hp hin hout herr t r q] [log open next]].
  destruct (reader_body_spec e l hp hin hout herr t r q log open next)
    as (b & r' & calls & -> & _ & Hposted & _).
  cbn zeta. cbn [snd]. rewrite emitted_app. simpl.
  exists (option_list (delivered e)). split_and!; try done.
  - destruct (delivered e); simpl; lia.
  - destruct (delivered e) as [chunk|] eqn:Hd; simpl; [|done].
    constructor; [|done]. by apply (delivered_bounds e).
Qed.

Lemma exits_spec e : exit_observed e ↔ exits e = true.
Proof.
  unfold exit_observed, exits. destruct (exit_code e) as [c|].
  - rewrite negb_true_iff, N.eqb_neq. split; [by intros (? & [= <-] & ?)|eauto].
  - split; [by intros (? & ? & ?)|done].
Qed.

Lemma reader_turn_polling e l hp hin hout herr q log open next :
  ∃ calls,
    reader_turn e
      (mkSys (mkEngineModule l hp hin hout herr Polling true q)
         (mkWorld log open next)) =
    (tt, mkSys (mkEngineModule l hp hin hout herr
                  (if exits e then Returned else Polling) (negb (exits e))
                  (q ++ option_list (delivered e)))
           (mkWorld (log ++ calls) open next)).
Proof.
  unfold reader_turn. run.
  destruct (reader_body_spec e l hp hin hout herr Polling true q log open next)
    as (b & r' & calls & -> & _ & _ & Hcase).
  exists calls.
  destruct Hcase as [(-> & -> & Hn)|(-> & -> & Hx)]; run.
  - rewrite exits_spec in Hn. by apply not_true_is_false in Hn as ->.
  - by apply exits_spec in Hx as ->.
Qed.

(** X13.  A trip of a polling reader in which nothing can be read (the
    peek fails or reports no byte, or the read fails or returns no byte)
    and the process is not seen to have exited changes nothing in the
    module: the reader goes on polling and the flag stays set. *)
Theorem reader_trip_without_data e σ :
  m_outputThread (this σ) = Polling →
  m_isRunning (this σ) = true →
  peek e = None ∨ peek e = Some 0%N ∨
  pipe_read e = None ∨ pipe_read e = Some [] →
  ¬ exit_observed e →
  this (reader_turn e σ).2 = this σ.
Proof.
  destruct σ as [[l hp hin hout herr t r q] [log open next]]. simpl.
  intros -> -> Hdata Hx.
  destruct (reader_turn_polling e l hp hin hout herr q log open next)
    as (calls & ->).
  rewrite exits_spec in Hx. apply not_true_is_false in Hx as ->.
  assert (delivered e = None) as ->; [|simpl; by rewrite app_nil_r].
  unfold delivered.
  destruct Hdata as [-> |[-> |[-> | ->]]]; try done.
  - by destruct (pipe_read e).
  - by destruct (peek e).
  - destruct (peek e); [|done]. simpl. by rewrite andb_false_r.
Qed.

Lemma reader_trip_without_data_witness :
  this (reader_turn failed_poll live).2 = this live.
Proof.
  assert (m_outputThread (this live) = Polling) as Ht
    by (vm_compute; reflexivity).
  assert (m_isRunning (this live) = true) as Hr
    by (vm_compute; reflexivity).
  assert (¬ exit_observed failed_poll) as Hx.
  { intros (code & [= <-] & Hne). by apply Hne. }
  exact (reader_trip_without_data failed_poll live Ht Hr (or_introl eq_refl) Hx).
Defined.

Lemma OutputReaderThread_returned polls l hp hin hout herr r q w :
  OutputReaderThread polls
    (mkSys (mkEngineModule l hp hin hout herr Returned r q) w) =
  (tt, mkSys (mkEngineModule l hp hin hout herr Returned r q) w).
Proof.
  induction polls as [|e polls IH]; [done|].
  cbn [OutputReaderThread]. unfold reader_turn at 1. run. apply IH.
Qed.

Lemma OutputReaderThread_polling polls l hp hin hout herr q log open next :
  ∃ calls,
    OutputReaderThread polls
      (mkSys (mkEngineModule l hp hin hout herr Polling true q)
         (mkWorld log open next)) =
    (tt, mkSys (mkEngineModule l hp hin hout herr
                  (if existsb exits polls then Returned else Polling)
                  (negb (existsb exits polls))
                  (q ++ omap delivered (until_exit polls)))
           (mkWorld (log ++ calls) open next)).
Proof.
  revert q log. induction polls as [|e polls IH]; intros q log.
  - exists []. simpl. by rewrite !app_nil_r.
  - cbn [OutputReaderThread]. run.
    destruct (reader_turn_polling e l hp hin hout herr q log open next)
      as (calls & ->).
    cbn [until_exit existsb]. destruct (exits e); cbn [negb orb].
    + rewrite OutputReaderThread_returned. exists calls.
      cbn [omap list_omap]. destruct (delivered e); simpl; by rewrite ?app_nil_r.
    + destruct (IH (q ++ option_list (delivered e)) (log ++ calls))
        as (calls' & ->).
      exists (calls ++ calls'). rewrite <- !app_assoc.
      change (omap delivered (e :: until_exit polls))
        with (match delivered e with
              | Some c => c :: omap delivered (until_exit polls)
              | None => omap delivered (until_exit polls)
              end).
      by destruct (delivered e).
Qed.

(** X14.  Over the successive trips of a polling reader, the chunks
    delivered are queued in the order of the trips, up to and including the
    trip that sees the process gone: what that trip reads is still queued,
    later trips are not made.  The reader has then returned and the flag is
    cleared; otherwise it still polls with the flag set.  ReadOutput
    returns what was queued followed by these chunks, in that order. *)
Theorem OutputReaderThread_queues_in_order polls σ :
  m_outputThread (this σ) = Polling →
  m_isRunning (this σ) = true →
  let σ' := (OutputReaderThread polls σ).2 in
  let chunks := omap delivered (until_exit polls) in
  m_outputQueue (this σ') = m_outputQueue (this σ) ++ chunks ∧
  m_isRunning (this σ') = negb (existsb exits polls) ∧
  m_outputThread (this σ') =
    (if existsb exits polls then Returned else Polling) ∧
  (ReadOutput σ').1 =
    Resolve (concat_chunks (m_outputQueue (this σ) ++ chunks)).
Proof.
  destruct σ as [[l hp hin hout herr t r q] [log open next]]. simpl.
  intros -> ->.
  destruct (OutputReaderThread_polling polls l hp hin hout herr q log open next)
    as (calls & ->).
  simpl. by rewrite ReadOutput_spec.
Qed.

Lemma OutputReaderThread_queues_in_order_witness :
  (ReadOutput
     (OutputReaderThread [failed_poll; sample_poll; exit_poll; sample_poll]
        live).2).1
  = Resolve (concat_chunks
               (m_outputQueue (this live)
                ++ omap delivered
                     (until_exit
                        [failed_poll; sample_poll; exit_poll; sample_poll]))).
Proof.
  assert (m_outputThread (this live) = Polling) as Ht
    by (vm_compute; reflexivity).
  assert (m_isRunning (this live) = true) as Hr
    by (vm_compute; reflexivity).
  exact (proj2 (proj2 (proj2 (OutputReaderThread_queues_in_order
           [failed_poll; sample_poll; exit_poll; sample_poll] live Ht Hr)))).
Defined.

(** ** Commands in sequence *)

Lemma send_all_spec commands l hp hin hout herr t q log open next :
  hin ≠ nullptr →
  Forall (λ c, (N.of_nat (String.length c) < DWORD_MAX - 1)%N) commands →
  ∃ calls,
    send_all commands
      (mkSys (mkEngineModule l hp hin hout herr t true q)
         (mkWorld log open next)) =
    (tt, mkSys (mkEngineModule l hp hin hout herr t true q)
           (mkWorld (log ++ calls) open next)) ∧
    child_input hin calls = concat_chunks (map terminated commands).
Proof.
  intros Hin Hlen. revert log.
  induction Hlen as [|c commands Hc _ IH]; intros log.
  - exists []. by rewrite app_nil_r.
  - unfold send_all. cbn [foldr]. fold (send_all commands). run.
    rewrite SendCommand_spec by done. run.
    destruct (IH (log ++ [EvWriteFile hin (terminated c)
                            (to_DWORD (String.length (terminated c)))
                            (Some (to_DWORD (String.length (terminated c))));
                          EvFlushFileBuffers hin]))
      as (calls & -> & Hinput).
    eexists (_ :: _ :: calls). rewrite <- app_assoc. split; [done|].
    cbn [child_input foldr bytes_into map concat_chunks].
    fold (child_input hin calls). rewrite decide_True by done.
    rewrite Hinput. fold (concat_chunks (map terminated commands)).
    rewrite to_DWORD_small.
    2:{ pose proof (length_terminated c). unfold DWORD_MAX in *. lia. }
    by rewrite !first_bytes_all.
Qed.

(** X15.  Commands sent one after the other on a running session, each
    accepted in full by the pipe, reach the child in the order sent, each
    with its line feed: the child's input grows by the concatenation of the
    terminated commands, and the module is unchanged. *)
Theorem send_all_in_order commands σ :
  m_isRunning (this σ) = true →
  m_stdinWrite (this σ) ≠ nullptr →
  Forall (λ c, (N.of_nat (String.length c) < DWORD_MAX - 1)%N) commands →
  let h := m_stdinWrite (this σ) in
  let σ' := (send_all commands σ).2 in
  this σ' = this σ ∧
  child_input h (os_log (os σ')) =
    child_input h (os_log (os σ))
    +:+ concat_chunks (map terminated commands).
Proof.
  destruct σ as [[l hp hin hout herr t r q] [log open next]]. simpl.
  intros -> Hin Hlen.
  destruct (send_all_spec commands l hp hin hout herr t q log open next
              Hin Hlen) as (calls & -> & Hinput).
  simpl. split; [done|]. by rewrite child_input_app, Hinput.
Qed.

Lemma send_all_in_order_witness :
  child_input (m_stdinWrite (this live))
    (os_log (os (send_all ["uci"; "isready"] live).2)) =
  child_input (m_stdinWrite (this live)) (os_log (os live))
  +:+ concat_chunks (map terminated ["uci"; "isready"]).
Proof.
  assert (m_isRunning (this live) = true) as Hrun
    by (vm_compute; reflexivity).
  assert (m_stdinWrite (this live) ≠ nullptr) as Hin
    by (vm_compute; discriminate).
  assert (Forall (λ c, (N.of_nat (String.length c) < DWORD_MAX - 1)%N)
            ["uci"; "isready"]) as Hlen.
  { repeat constructor. }
  exact (proj2 (send_all_in_order ["uci"; "isready"] live Hrun Hin Hlen)).
Defined.

(** ** Pipe handles after a failed pipe creation *)

(** X16.  On a module without session, when the first pipe is created and
    the second or the third is not, SpawnEngine closes the write end of the
    first pipe but keeps its value in [m_stdinWrite]: the member is not
    null although the handle is no longer open, and the next StopEngine
    calls CloseHandle on that value a second time. *)
Theorem pipe_failure_closes_handle_twice e path inflight σ :
  no_session (this σ) →
  reaches_restart e path →
  pipe_stdin e = true →
  pipe_stdout e = false ∨ pipe_stderr e = false →
  let σ' := (SpawnEngine e path σ).2 in
  let h := m_stdinWrite (this σ') in
  h ≠ nullptr ∧
  (h ∉ open_handles (os σ')) ∧
  (h ∈ omap closed (emitted σ σ')) ∧
  (h ∈ omap closed (emitted σ' (StopEngine inflight σ').2)).
Proof.
  intros Hnone Hreach Hp1 Hp23. destruct σ as [m [log open next]].
  cbn [this] in Hnone. rewrite (no_session_eq m Hnone).
  generalize (OnEngineOutput m). intros l. clear m Hnone.
  assert (file_exists e (packagePath e ++ L "\Assets\engines\" ++ filename_of path) = true
          ∧ (length (tempPath e) =? 0) = false
          ∧ copy_succeeds e (packagePath e ++ L "\Assets\engines\" ++ filename_of path)
              (tempPath e ++ L "ChessAppEngine\" ++ filename_of path) = true
          ∧ wempty (tempPath e ++ L "ChessAppEngine\" ++ filename_of path) = false)
    as (Hf & Ht & Hc & He).
  { destruct Hreach as (? & ? & ?). split_and!; try done; by destruct (tempPath e). }
  clear Hreach.
  unfold SpawnEngine, CopyEngineToAppData, CreateEngineProcess, fresh_module.
  rewrite filename_of_package. rewrite <- (app_assoc (tempPath e)).
  set (pkgPath := packagePath e ++ L "\Assets\engines\" ++ filename_of path) in *.
  set (dest := tempPath e ++ L "ChessAppEngine\" ++ filename_of path) in *.
  run. rewrite Hf. run. rewrite Ht. run. rewrite Hc. run. rewrite He. run.
  clearbody pkgPath dest. clear Hf Ht Hc He.
  rewrite Hp1. run.
  destruct (pipe_stdout e); run.
  2:{ cbn zeta. run. rewrite <- ?app_assoc. rewrite emitted_app. cbn [app].
      split_and!; [done|set_solver| |].
      - cbn. set_solver.
      - unfold StopEngine. run.
        match goal with
        | |- context [CleanupProcess ?i
                        (mkSys (mkEngineModule ?l ?a ?b ?c ?d ?t ?r ?q)
                           (mkWorld ?lg ?o ?n))] =>
            destruct (CleanupProcess_spec i l a b c d t r q lg o n)
              as (calls & open' & -> & _ & _ & _ & Hi & _)
        end.
        run. rewrite emitted_app. apply list_elem_of_omap.
        eexists. split; [by apply Hi|done]. }
  destruct Hp23 as [?|Hp3]; [done|]. rewrite Hp3. run.
  cbn zeta. run. rewrite <- ?app_assoc. rewrite emitted_app. cbn [app].
  split_and!; [done|set_solver| |].
  - cbn. set_solver.
  - unfold StopEngine. run.
    match goal with
    | |- context [CleanupProcess ?i
                    (mkSys (mkEngineModule ?l ?a ?b ?c ?d ?t ?r ?q)
                       (mkWorld ?lg ?o ?n))] =>
        destruct (CleanupProcess_spec i l a b c d t r q lg o n)
          as (calls & open' & -> & _ & _ & _ & Hi & _)
    end.
    run. rewrite emitted_app. apply list_elem_of_omap.
    eexists. split; [by apply Hi|done].
Qed.

Lemma pipe_failure_closes_handle_twice_witness :
  m_stdinWrite (this (SpawnEngine stdout_pipe_fails (L "engine.exe") idle).2)
  ≠ nullptr.
Proof.
  assert (no_session (this idle)) as Hidle by (by repeat split).
  assert (reaches_restart stdout_pipe_fails (L "engine.exe")) as Hreach.
  { repeat split; vm_compute; (reflexivity || discriminate). }
  exact (proj1 (pipe_failure_closes_handle_twice stdout_pipe_fails
                  (L "engine.exe") None idle Hidle Hreach
                  eq_refl (or_introl eq_refl))).
Defined.
